(** * calval.normalized_scene: identities, storage paths and lazy scenes

    A shallow embedding of [calval/normalized_scene.py].  Python strings
    are [string]s, tuples and argument lists are [list]s, keyword
    arguments and dicts are association lists in insertion order, and an
    operation that may raise returns a [result].  The library functions the
    module calls ([str.split], [str.join], [datetime.strftime],
    [datetime.strptime] at the module's fixed format, the [namedtuple]
    constructor) are written out next to the code that uses them. *)

From Stdlib Require Import String Ascii List Bool Arith Lia.
Import ListNotations.
Open Scope string_scope.
Open Scope nat_scope.

(** ** Exceptions and results *)

Inductive exception : Type :=
| TypeError
| ValueError
| AssertionError
| AttributeError
| IndexError
| KeyError
| OSError.

Inductive result (A : Type) : Type :=
| Ok (a : A)
| Raise (e : exception).

Arguments Ok {A} a.
Arguments Raise {A} e.

Definition bind {A B : Type} (r : result A) (k : A -> result B) : result B :=
  match r with
  | Ok a => k a
  | Raise e => Raise e
  end.

Notation "x <- c ;; k" := (bind c (fun x => k))
  (at level 61, c at next level, right associativity).

Fixpoint mapM {A B : Type} (f : A -> result B) (l : list A) : result (list B) :=
  match l with
  | [] => Ok []
  | x :: tl => y <- f x ;; ys <- mapM f tl ;; Ok (y :: ys)
  end.

(** ** Strings *)

Module Str.

(** [sep.join(l)] *)
Definition join (sep : string) (l : list string) : string :=
  String.concat sep l.

(** The scan of [s.split(sep)]: the first token of [s] and the tokens after
    it.  [skip] counts the characters of a separator just found that are
    still to be passed over. *)
Fixpoint split_from (sep : string) (skip : nat) (s : string)
  : string * list string :=
  match s with
  | EmptyString => (EmptyString, [])
  | String c s' =>
      match skip with
      | S k => split_from sep k s'
      | O =>
          if prefix sep s
          then (EmptyString,
                let (t, ts) := split_from sep (String.length sep - 1) s' in
                t :: ts)
          else let (t, ts) := split_from sep 0 s' in (String c t, ts)
      end
  end.

(** [s.split(sep)]; an empty separator is a [ValueError]. *)
Definition split (s sep : string) : result (list string) :=
  match sep with
  | EmptyString => Raise ValueError
  | _ => let (t, ts) := split_from sep 0 s in Ok (t :: ts)
  end.

(** Whether character [c] occurs in [s]. *)
Fixpoint contains (c : ascii) (s : string) : bool :=
  match s with
  | EmptyString => false
  | String a s' => Ascii.eqb a c || contains c s'
  end.

(** [s] holds no ['_']. *)
Definition no_sep (s : string) : Prop := contains "_" s = false.

Definition same_length (x y : string) : Prop :=
  String.length x = String.length y.

(** Comparison of tuples of strings, as Python compares tuples: equal when
    of one length with equal items; ordered by the first pair of items that
    differ, a proper prefix coming first. *)
Fixpoint tuple_eqb (l1 l2 : list string) : bool :=
  match l1, l2 with
  | [], [] => true
  | x :: t1, y :: t2 => String.eqb x y && tuple_eqb t1 t2
  | _, _ => false
  end.

Fixpoint tuple_ltb (l1 l2 : list string) : bool :=
  match l1, l2 with
  | [], [] => false
  | [], _ :: _ => true
  | _ :: _, [] => false
  | x :: t1, y :: t2 =>
      if String.eqb x y then tuple_ltb t1 t2 else String.ltb x y
  end.

(** Field-by-field order on tuples of strings: the first field that differs
    decides, by the order of strings; a proper prefix comes first. *)
Inductive tuple_lt : list string -> list string -> Prop :=
| tuple_lt_nil (y : string) (l : list string) : tuple_lt [] (y :: l)
| tuple_lt_head (x y : string) (l1 l2 : list string) :
    String.ltb x y = true -> tuple_lt (x :: l1) (y :: l2)
| tuple_lt_tail (x : string) (l1 l2 : list string) :
    tuple_lt l1 l2 -> tuple_lt (x :: l1) (x :: l2).

End Str.

(** ** Timestamps: [datetime] and the format ['%Y%m%d%H%M'] *)

Module Datetime.

Record datetime : Type := mk_datetime {
  year : nat;
  month : nat;
  day : nat;
  hour : nat;
  minute : nat;
  second : nat
}.

Definition is_leap (y : nat) : bool :=
  ((y mod 4 =? 0) && negb (y mod 100 =? 0)) || (y mod 400 =? 0).

Definition days_in_month (y m : nat) : nat :=
  match m with
  | 2 => if is_leap y then 29 else 28
  | 4 | 6 | 9 | 11 => 30
  | _ => 31
  end.

(** The ranges the [datetime] constructor enforces (years 1 to 9999). *)
Definition valid (d : datetime) : bool :=
  (1 <=? year d) && (year d <? 10 * 1000) &&
  (1 <=? month d) && (month d <=? 12) &&
  (1 <=? day d) && (day d <=? days_in_month (year d) (month d)) &&
  (hour d <=? 23) && (minute d <=? 59) && (second d <=? 59).

(** Years of four digits.  Below 1000 [strftime] prints the year on fewer
    digits than [strptime] reads, so the properties of printed timestamps
    are stated for these years. *)
Definition four_digit_year (d : datetime) : bool := 1000 <=? year d.

(** A timestamp cut to the minute. *)
Definition to_minute (d : datetime) : datetime :=
  mk_datetime (year d) (month d) (day d) (hour d) (minute d) 0.

Definition digit (k : nat) : ascii := ascii_of_nat (48 + k).

Definition pad2 (n : nat) : string :=
  String (digit (n / 10)) (String (digit (n mod 10)) EmptyString).

Definition pad4 (n : nat) : string :=
  String (digit (n / 1000))
         (String (digit (n / 100 mod 10)) (pad2 (n mod 100))).

(** [%Y] as the C library behind [strftime] prints it: the year in decimal,
    not padded, so on fewer than four digits below 1000. *)
Definition print_year (y : nat) : string :=
  if y <? 10 then String (digit y) EmptyString
  else if y <? 100 then pad2 y
  else if y <? 1000 then String (digit (y / 100)) (pad2 (y mod 100))
  else pad4 y.

(** [d.strftime('%Y%m%d%H%M')]: the year as [%Y] prints it, the other fields
    on two digits, zero padded. *)
Definition strftime (d : datetime) : string :=
  print_year (year d) ++ pad2 (month d) ++ pad2 (day d)
    ++ pad2 (hour d) ++ pad2 (minute d).

Definition is_digit (c : ascii) : bool :=
  (48 <=? nat_of_ascii c) && (nat_of_ascii c <=? 57).

Definition digit_val (c : ascii) : nat := nat_of_ascii c - 48.

(** The alternatives of one directive's pattern are tried in the order
    written; each yields the number read and the rest of the input. *)
Definition two_digits (ok : nat -> nat -> bool) (s : string)
  : list (nat * string) :=
  match s with
  | String a (String b rest) =>
      if is_digit a && is_digit b && ok (digit_val a) (digit_val b)
      then [(10 * digit_val a + digit_val b, rest)] else []
  | _ => []
  end.

Definition one_digit (ok : nat -> bool) (s : string) : list (nat * string) :=
  match s with
  | String a rest =>
      if is_digit a && ok (digit_val a) then [(digit_val a, rest)] else []
  | _ => []
  end.

Definition space_digit (ok : nat -> bool) (s : string) : list (nat * string) :=
  match s with
  | String " " (String a rest) =>
      if is_digit a && ok (digit_val a) then [(digit_val a, rest)] else []
  | _ => []
  end.

(** [%Y]: [\d\d\d\d] *)
Definition re_Y (s : string) : list (nat * string) :=
  match s with
  | String a (String b (String c (String d rest))) =>
      if is_digit a && is_digit b && is_digit c && is_digit d
      then [(1000 * digit_val a + 100 * digit_val b
             + 10 * digit_val c + digit_val d, rest)]
      else []
  | _ => []
  end.

(** [%m]: [1[0-2]|0[1-9]|[1-9]] *)
Definition re_m (s : string) : list (nat * string) :=
  (two_digits (fun a b => (a =? 1) && (b <=? 2)) s
   ++ two_digits (fun a b => (a =? 0) && (1 <=? b)) s
   ++ one_digit (fun a => 1 <=? a) s)%list.

(** [%d]: [3[0-1]|[1-2]\d|0[1-9]|[1-9]| [1-9]] *)
Definition re_d (s : string) : list (nat * string) :=
  (two_digits (fun a b => (a =? 3) && (b <=? 1)) s
   ++ two_digits (fun a _ => (1 <=? a) && (a <=? 2)) s
   ++ two_digits (fun a b => (a =? 0) && (1 <=? b)) s
   ++ one_digit (fun a => 1 <=? a) s
   ++ space_digit (fun a => 1 <=? a) s)%list.

(** [%H]: [2[0-3]|[0-1]\d|\d] *)
Definition re_H (s : string) : list (nat * string) :=
  (two_digits (fun a b => (a =? 2) && (b <=? 3)) s
   ++ two_digits (fun a _ => a <=? 1) s
   ++ one_digit (fun _ => true) s)%list.

(** [%M]: [[0-5]\d|\d] *)
Definition re_M (s : string) : list (nat * string) :=
  (two_digits (fun a _ => a <=? 5) s
   ++ one_digit (fun _ => true) s)%list.

(** All the ways the pattern of ['%Y%m%d%H%M'] matches a prefix of [s], in
    the order a backtracking matcher finds them. *)
Definition re_timestamp (s : string) : list (datetime * string) :=
  flat_map (fun '(Y, s1) =>
  flat_map (fun '(m, s2) =>
  flat_map (fun '(d, s3) =>
  flat_map (fun '(H, s4) =>
  map (fun '(M, s5) => (mk_datetime Y m d H M 0, s5))
      (re_M s4)) (re_H s3)) (re_d s2)) (re_m s1)) (re_Y s).

(** [datetime.strptime(s, '%Y%m%d%H%M')]: the first match is taken; input
    left over after it, or a date out of range, is a [ValueError].  Digits
    are the ASCII ones; the library reads other decimal digits of Unicode as
    well. *)
Definition strptime (s : string) : result datetime :=
  match re_timestamp s with
  | [] => Raise ValueError
  | (d, rest) :: _ =>
      match rest with
      | EmptyString => if valid d then Ok d else Raise ValueError
      | _ => Raise ValueError
      end
  end.

(** Which of two timestamps comes first, to the minute. *)
Definition compare_minutes (d1 d2 : datetime) : comparison :=
  match year d1 ?= year d2 with
  | Eq =>
      match month d1 ?= month d2 with
      | Eq =>
          match day d1 ?= day d2 with
          | Eq =>
              match hour d1 ?= hour d2 with
              | Eq => minute d1 ?= minute d2
              | c => c
              end
          | c => c
          end
      | c => c
      end
  | c => c
  end.

Definition before (d1 d2 : datetime) : bool :=
  match compare_minutes d1 d2 with
  | Lt => true
  | _ => false
  end.

End Datetime.

(** ** Values, dicts and [namedtuple] *)

(** What a field of an identity holds: a plain string, or an object with a
    [strftime] method. *)
Inductive value : Type :=
| VStr (s : string)
| VTime (d : Datetime.datetime).

(** A dict with string keys, in insertion order. *)
Definition dict (A : Type) : Type := list (string * A).

Fixpoint dict_get {A : Type} (d : dict A) (k : string) : option A :=
  match d with
  | [] => None
  | (k', v) :: tl => if String.eqb k' k then Some v else dict_get tl k
  end.

(** [d[k] = v]: an existing key keeps its place, a new key goes last. *)
Fixpoint dict_set {A : Type} (d : dict A) (k : string) (v : A) : dict A :=
  match d with
  | [] => [(k, v)]
  | (k', v') :: tl =>
      if String.eqb k' k then (k', v) :: tl else (k', v') :: dict_set tl k v
  end.

(** [d.update(other)] *)
Definition dict_update {A : Type} (d other : dict A) : dict A :=
  fold_left (fun acc kv => dict_set acc (fst kv) (snd kv)) other d.

(** The dict comprehension [{k: f(k) for k in keys}]. *)
Definition dict_comp {A : Type} (f : string -> A) (keys : list string)
  : dict A :=
  fold_left (fun acc k => dict_set acc k (f k)) keys [].

(** [k in l] *)
Definition mem (k : string) (l : list string) : bool :=
  existsb (String.eqb k) l.

Module Namedtuple.

(** A class made by [namedtuple(name, fields)], with the defaults set
    through [__new__.__defaults__]: they belong to the rightmost fields. *)
Record tuple_type : Type := mk_tuple_type {
  _fields : list string;
  _defaults : list value
}.

(** Each field with its default, if it has one. *)
Definition field_specs (tt : tuple_type) : list (string * option value) :=
  let n := List.length (_fields tt) - List.length (_defaults tt) in
  combine (_fields tt)
          (repeat None n ++ map Some (_defaults tt))%list.

(** Binding of the fields left after the positional arguments are used up:
    a keyword argument, else the default, else a [TypeError] for the
    missing argument. *)
Fixpoint bind_fields (specs : list (string * option value))
         (args : list value) (kwargs : dict value) : result (list value) :=
  match specs with
  | [] => Ok []
  | (f, dflt) :: specs' =>
      match args with
      | a :: args' =>
          vs <- bind_fields specs' args' kwargs ;; Ok (a :: vs)
      | [] =>
          v <- match dict_get kwargs f, dflt with
               | Some v, _ => Ok v
               | None, Some v => Ok v
               | None, None => Raise TypeError
               end ;;
          vs <- bind_fields specs' [] kwargs ;; Ok (v :: vs)
      end
  end.

(** The call of the class on positional and keyword arguments.
    A [TypeError] when there are more
    positional arguments than fields, when a keyword is not a field, or when
    a keyword names a field already given by position. *)
Definition new (tt : tuple_type) (args : list value) (kwargs : dict value)
  : result (list value) :=
  if List.length (_fields tt) <? List.length args then Raise TypeError
  else if negb (forallb (fun kv => mem (fst kv) (_fields tt)) kwargs)
  then Raise TypeError
  else if existsb (fun kv => mem (fst kv)
                                 (firstn (List.length args) (_fields tt)))
                  kwargs
  then Raise TypeError
  else bind_fields (field_specs tt) args kwargs.

(** [getattr(t, field)] on an instance holding [vals]. *)
Fixpoint getattr (fields : list string) (vals : list value) (field : string)
  : result value :=
  match fields, vals with
  | f :: fs, v :: vs =>
      if String.eqb f field then Ok v else getattr fs vs field
  | _, _ => Raise AttributeError
  end.

(** [t._asdict()] *)
Definition _asdict (tt : tuple_type) (vals : list value) : dict value :=
  combine (_fields tt) vals.

End Namedtuple.

Definition band_names : list string := ["blue"; "green"; "red"; "nir"].

Definition sceneid_params : Namedtuple.tuple_type :=
  Namedtuple.mk_tuple_type
    ["product"; "satellite"; "tile_id"; "timestamp"; "tag"] [VStr "0"].

Definition scenesetid_params : Namedtuple.tuple_type :=
  Namedtuple.mk_tuple_type ["satellite"; "tile_id"; "timestamp"] [].

(** ** [StringableTuple] and the two identity classes *)

Module StringableTuple.

Import Datetime.

(** What a subclass fixes: [tuple_type] and [timestamp_fields].  The format
    [timestamp_fmt] is ['%Y%m%d%H%M'] for every class. *)
Record class : Type := mk_class {
  tuple_type : Namedtuple.tuple_type;
  timestamp_fields : list string
}.

(** An instance: its class and [self.params]. *)
Record t : Type := mk {
  cls : class;
  params : list value
}.

Definition fields_of (c : class) : list string :=
  Namedtuple._fields (tuple_type c).

(** Instances come out of [__init__] only, so [params] has one item per
    field of the class. *)
Definition wf (self : t) : Prop :=
  List.length (params self) = List.length (fields_of (cls self)).

Definition __init__ (c : class) (args : list value) (kwargs : dict value)
  : result t :=
  p <- Namedtuple.new (tuple_type c) args kwargs ;; Ok (mk c p).

Definition _fromstr (c : class) (s : value) (fieldname : string)
  : result value :=
  if mem fieldname (timestamp_fields c)
  then match s with
       | VStr s' => d <- strptime s' ;; Ok (VTime d)
       | VTime _ => Raise TypeError
       end
  else Ok s.

Definition _tostr (x : value) : string :=
  match x with
  | VTime d => strftime d
  | VStr s => s
  end.

(** [self.str_tuple]: the items of [params] as strings.  The source wraps
    them in [tuple_type] again, a call on one positional argument per field,
    which returns them as given (see [str_tuple_new] below). *)
Definition str_tuple (self : t) : list string :=
  map _tostr (params self).

Definition from_str (c : class) (s : string) (separator : string) : result t :=
  tokens <- Str.split s separator ;;
  str_tuple <- Namedtuple.new (tuple_type c) (map VStr tokens) [] ;;
  args <- mapM (fun field =>
                  x <- Namedtuple.getattr (fields_of c) str_tuple field ;;
                  _fromstr c x field)
               (fields_of c) ;;
  __init__ c args [].

Definition copy_with (self : t) (kwargs : dict value) : result t :=
  let data := Namedtuple._asdict (tuple_type (cls self)) (params self) in
  let data := dict_update data kwargs in
  __init__ (cls self) [] data.

Definition __getattr__ (self : t) (item : string) : result value :=
  Namedtuple.getattr (fields_of (cls self)) (params self) item.

Definition __str__ (self : t) : string :=
  Str.join "_" (str_tuple self).

Definition __eq__ (self other : t) : bool :=
  Str.tuple_eqb (str_tuple self) (str_tuple other).

Definition __lt__ (self other : t) : bool :=
  Str.tuple_ltb (str_tuple self) (str_tuple other).

(** A value that prints as a timestamp at minute resolution. *)
Definition minute_timestamp (v : value) : Prop :=
  exists d,
    valid d = true /\ four_digit_year d = true /\ _tostr v = strftime d.

(** A field tuple the codec is meant for: one item per field, no ['_'] in
    an item's string, and a minute timestamp in each timestamp field. *)
Definition valid_identity (self : t) : Prop :=
  wf self /\
  Forall Str.no_sep (str_tuple self) /\
  forall f v, mem f (timestamp_fields (cls self)) = true ->
              __getattr__ self f = Ok v -> minute_timestamp v.

(** The value [copy_with] finds for field [f] in [data] after the update. *)
Definition updated (self : t) (kwargs : dict value) (f : string) : value :=
  match dict_get (dict_update
                    (Namedtuple._asdict (tuple_type (cls self)) (params self))
                    kwargs) f
  with
  | Some v => v
  | None => VStr ""
  end.

End StringableTuple.

Definition NormalizedScenesetId : StringableTuple.class :=
  StringableTuple.mk_class scenesetid_params ["timestamp"].

Definition NormalizedSceneId : StringableTuple.class :=
  StringableTuple.mk_class sceneid_params ["timestamp"].

Module SceneId.

Import StringableTuple.

Definition sceneset_id (self : t) : result t :=
  args <- mapM (__getattr__ self) (fields_of NormalizedScenesetId) ;;
  __init__ NormalizedScenesetId args [].

Definition dir_path (self : t) : string :=
  Str.join "/" (str_tuple self).

Definition scenepath_prefix (self : t) : string :=
  Str.join "/" [dir_path self; __str__ self].

Definition metadata_path (self : t) : string :=
  scenepath_prefix self ++ "_metadata.json".

Definition band_path (self : t) (band : string) : string :=
  scenepath_prefix self ++ "_" ++ band ++ ".tif".

Definition band_url (self : t) (prefix band : string) : string :=
  prefix ++ band_path self band.

Definition band_urls (self : t) (prefix : string) (bands : list string)
  : dict string :=
  dict_comp (fun band => band_url self prefix band) bands.

End SceneId.

(** ** [FilebasedScene]: the lazy scene read from files *)

Module FilebasedScene.

(** [os.path.join(a, b)] on POSIX paths. *)
Definition os_path_join (a b : string) : string :=
  if prefix "/" b then b
  else match a with
       | EmptyString => b
       | _ => if String.eqb (substring (String.length a - 1) 1 a) "/"
              then a ++ b else a ++ "/" ++ b
       end.

(** The file system and the JSON library, as the module sees them. *)
Record env (json : Type) : Type := mk_env {
  isfile : string -> bool;              (* os.path.isfile *)
  isdir : string -> bool;               (* os.path.isdir *)
  glob : string -> list string;         (* glob.glob *)
  dirname : string -> string;           (* os.path.dirname *)
  abspath : string -> string;           (* os.path.abspath *)
  read_file : string -> result string;  (* the text open(p) gives *)
  json_loads : string -> result json;   (* json.load on that text *)
  getitem : json -> string -> result json;  (* metadata[key] *)
  format : json -> string               (* '{}'.format(x) *)
}.

Arguments isfile {json} e _.
Arguments isdir {json} e _.
Arguments glob {json} e _.
Arguments dirname {json} e _.
Arguments abspath {json} e _.
Arguments read_file {json} e _.
Arguments json_loads {json} e _.
Arguments getitem {json} e _ _.
Arguments format {json} e _.

Section Scene.

Context {json : Type} (E : env json).

(** The attributes an instance may hold; [None] is an attribute not set. *)
Record scene : Type := mk_scene {
  band_urls_attr : option (dict string);
  _metadata_path : option string;
  _path : option string;
  metadata_attr : option json
}.

Definition blank : scene := mk_scene None None None None.

(** The state the methods run in: the instance, and the paths given to
    [open] so far, oldest first. *)
Record state : Type := mk_state {
  self : scene;
  opened : list string
}.

Definition M (A : Type) : Type := state -> result A * state.

Definition ret {A : Type} (a : A) : M A := fun st => (Ok a, st).

Definition raise {A : Type} (e : exception) : M A := fun st => (Raise e, st).

Definition bindM {A B : Type} (m : M A) (k : A -> M B) : M B :=
  fun st =>
    match m st with
    | (Ok a, st') => k a st'
    | (Raise e, st') => (Raise e, st')
    end.

Notation "x <~ c ;; k" := (bindM c (fun x => k))
  (at level 61, c at next level, right associativity).

Definition lift {A : Type} (r : result A) : M A := fun st => (r, st).

Definition get_self : M scene := fun st => (Ok (self st), st).

Definition put_self (s : scene) : M unit :=
  fun st => (Ok tt, mk_state s (opened st)).

(** [self.name] for an attribute that may not be set. *)
Definition attr {A : Type} (proj : scene -> option A) : M A :=
  fun st =>
    match proj (self st) with
    | Some a => (Ok a, st)
    | None => (Raise AttributeError, st)
    end.

(** [open(p)] followed by reading the file. *)
Definition open_read (p : string) : M string :=
  fun st => (read_file E p, mk_state (self st) (opened st ++ [p])%list).

Definition set_band_urls (b : dict string) (s : scene) : scene :=
  mk_scene (Some b) (_metadata_path s) (_path s) (metadata_attr s).

Definition set_metadata_path (p : string) (s : scene) : scene :=
  mk_scene (band_urls_attr s) (Some p) (_path s) (metadata_attr s).

Definition set_path (p : string) (s : scene) : scene :=
  mk_scene (band_urls_attr s) (_metadata_path s) (Some p) (metadata_attr s).

Definition set_metadata (m : json) (s : scene) : scene :=
  mk_scene (band_urls_attr s) (_metadata_path s) (_path s) (Some m).

Definition modify (f : scene -> scene) : M unit :=
  s <~ get_self ;; put_self (f s).

Definition __init__ (path : string) (band_urls : option (dict string))
  : M unit :=
  _ <~ match band_urls with
       | Some b => modify (set_band_urls b)
       | None => ret tt
       end ;;
  if isfile E path then
    _ <~ modify (set_metadata_path path) ;;
    modify (set_path (abspath E (dirname E path)))
  else if isdir E path then
    _ <~ modify (set_path path) ;;
    let fnames := glob E (os_path_join path "*_metadata.json") in
    if List.length fnames =? 1 then
      match fnames with
      | f :: _ => modify (set_metadata_path f)
      | [] => raise IndexError
      end
    else raise AssertionError
  else ret tt.

(** The fresh instance once [__init__] has dealt with [band_urls]. *)
Definition started (bu : option (dict string)) : scene :=
  match bu with
  | Some b => set_band_urls b blank
  | None => blank
  end.

(** [FilebasedScene(path, band_urls)]: a fresh instance is handed to
    [__init__]; the caller gets it only if [__init__] returns. *)
Definition construct (path : string) (band_urls : option (dict string))
           (files : list string) : result scene * list string :=
  match __init__ path band_urls (mk_state blank files) with
  | (Ok _, st) => (Ok (self st), opened st)
  | (Raise e, st) => (Raise e, opened st)
  end.

(** Modelled from the spec: [cached_property] of [calval.utils], which is
    not among the sources.  The value is computed at most once, on first
    access, and kept on the instance for its lifetime; a computation that
    raises stores nothing, so the next access computes again. *)
Definition cached_property {A : Type} (slot : scene -> option A)
           (store : A -> scene -> scene) (func : M A) : M A :=
  s <~ get_self ;;
  match slot s with
  | Some v => ret v
  | None => v <~ func ;; _ <~ modify (store v) ;; ret v
  end.

Definition metadata : M json :=
  cached_property metadata_attr set_metadata
    (p <~ attr _metadata_path ;;
     text <~ open_read p ;;
     lift (json_loads E text)).

(** The dict [band_urls] builds for the scene [scene_id] in directory [dir]. *)
Definition derived_urls (dir : string) (scene_id : json) : dict string :=
  dict_comp
    (fun band =>
       os_path_join dir (format E scene_id ++ "_" ++ band ++ ".tif"))
    band_names.

Definition band_urls : M (dict string) :=
  cached_property band_urls_attr set_band_urls
    (md <~ metadata ;;
     scene_id <~ lift (getitem E md "scene_id") ;;
     let scene_id_str := format E scene_id in
     dir <~ attr _path ;;
     ret (dict_comp
            (fun band =>
               os_path_join dir (scene_id_str ++ "_" ++ band ++ ".tif"))
            band_names)).

(** [NormalizedScene.__getitem__]: [self.metadata[key]]. *)
Definition __getitem__ (key : string) : M json :=
  md <~ metadata ;; lift (getitem E md key).

(** [n] accesses to [.metadata] one after the other, each result (value or
    exception) kept. *)
Fixpoint metadata_accesses (n : nat) (st : state)
  : list (result json) * state :=
  match n with
  | O => ([], st)
  | S k =>
      let (r, st') := metadata st in
      let (rs, st'') := metadata_accesses k st' in
      (r :: rs, st'')
  end.

End Scene.

End FilebasedScene.

(** ** Sample identities and a sample directory *)

Module Sample.

Import StringableTuple.

Definition noon : Datetime.datetime := Datetime.mk_datetime 2024 1 1 12 0 0.

Definition scene_l1 : t :=
  mk NormalizedSceneId
     [VStr "L1"; VStr "SAT1"; VStr "TILE42"; VTime noon; VStr "0"].

Definition set_sat : t :=
  mk NormalizedScenesetId [VStr "SAT"; VStr "T1"; VTime noon].

Definition set_sat1 : t :=
  mk NormalizedScenesetId [VStr "SAT1"; VStr "T1"; VTime noon].

(** A scene set of the year 999. *)
Definition set_999 : t :=
  mk NormalizedScenesetId
     [VStr "SAT"; VStr "T1"; VTime (Datetime.mk_datetime 999 1 2 3 4 0)].

(** A file system with three directories: [scenes/a] holds the one metadata
    file [scene_l1] names, [scenes/two] holds two metadata files and
    [scenes/empty] none.  The parsed metadata is kept as the text read. *)
Definition meta_file : string :=
  "scenes/a/L1_SAT1_TILE42_202401011200_0_metadata.json".

Definition disk : FilebasedScene.env string :=
  FilebasedScene.mk_env string
    (fun p => String.eqb p meta_file
              || String.eqb p "scenes/two/x_metadata.json"
              || String.eqb p "scenes/two/y_metadata.json")
    (fun p => String.eqb p "scenes/a" || String.eqb p "scenes/two"
              || String.eqb p "scenes/empty")
    (fun pat => if String.eqb pat "scenes/a/*_metadata.json"
                then [meta_file]
                else if String.eqb pat "scenes/two/*_metadata.json"
                then ["scenes/two/x_metadata.json";
                      "scenes/two/y_metadata.json"]
                else [])
    (fun p => p)
    (fun p => p)
    (fun p => if String.eqb p meta_file
              then Ok "L1_SAT1_TILE42_202401011200_0" else Raise OSError)
    (fun text => match text with
                 | EmptyString => Raise ValueError
                 | _ => Ok text
                 end)
    (fun md key => if String.eqb key "scene_id" then Ok md else Raise KeyError)
    (fun x => x).

End Sample.

(** * Properties *)

(** ** Splitting and joining *)

Module StrFacts.

Import Str.

Lemma prefix_underscore (c : ascii) (s : string) :
  prefix "_" (String c s) = Ascii.eqb c "_".
Proof.
  cbn [prefix]. destruct (ascii_dec "_" c) as [<- | Hne]; cbv iota.
  - now destruct s.
  - symmetry. apply Ascii.eqb_neq. congruence.
Qed.

Lemma split_from_no_sep (t : string) :
  no_sep t -> split_from "_" 0 t = (t, []).
Proof.
  unfold no_sep. induction t as [| c t IH]; intros H; [reflexivity |].
  cbn [contains] in H. apply orb_false_iff in H as [Hc Ht].
  cbn [split_from]. rewrite prefix_underscore, Hc, (IH Ht). reflexivity.
Qed.

Lemma split_from_token (t r : string) :
  no_sep t ->
  split_from "_" 0 (t ++ "_" ++ r)
  = (t, let (a, b) := split_from "_" 0 r in a :: b).
Proof.
  unfold no_sep. induction t as [| c t IH]; intros H.
  - change ("" ++ "_" ++ r)%string with (String "_" r).
    cbn [split_from]. rewrite prefix_underscore. reflexivity.
  - cbn [contains] in H. apply orb_false_iff in H as [Hc Ht].
    change (String c t ++ "_" ++ r)%string with (String c (t ++ "_" ++ r)).
    cbn [split_from]. rewrite prefix_underscore, Hc, (IH Ht). reflexivity.
Qed.

Lemma split_from_join (x : string) (l : list string) :
  Forall no_sep (x :: l) ->
  split_from "_" 0 (join "_" (x :: l)) = (x, l).
Proof.
  revert x. induction l as [| y l IH]; intros x H.
  - apply split_from_no_sep. now inversion H.
  - inversion H as [| ? ? Hx Hl]; subst.
    change (join "_" (x :: y :: l)) with (x ++ "_" ++ join "_" (y :: l))%string.
    rewrite (split_from_token _ _ Hx), (IH _ Hl). reflexivity.
Qed.

(** Splitting undoes joining when no item holds the separator. *)
Lemma split_join (l : list string) :
  l <> [] -> Forall no_sep l -> split (join "_" l) "_" = Ok l.
Proof.
  destruct l as [| x l]; [congruence |]. intros _ H.
  unfold split. now rewrite (split_from_join _ _ H).
Qed.

Lemma join_inj (l1 l2 : list string) :
  List.length l1 = List.length l2 ->
  Forall no_sep l1 -> Forall no_sep l2 ->
  join "_" l1 = join "_" l2 -> l1 = l2.
Proof.
  intros Hlen H1 H2 Hj.
  destruct l1 as [| x1 l1], l2 as [| x2 l2]; try discriminate; [reflexivity |].
  assert (E : Ok (x1 :: l1) = Ok (x2 :: l2)).
  { rewrite <- (split_join (x1 :: l1)), <- (split_join (x2 :: l2))
      by (congruence || assumption).
    now rewrite Hj. }
  now inversion E.
Qed.

End StrFacts.

(** ** Printing and parsing a timestamp *)

Module DatetimeFacts.

Import Datetime.

Lemma digit_ok (k : nat) :
  k < 10 -> is_digit (digit k) = true /\ digit_val (digit k) = k.
Proof.
  intros H. do 10 (destruct k as [| k]; [split; reflexivity |]). lia.
Qed.

Lemma re_Y_pad4 (y : nat) (rest : string) :
  y < 10 * 1000 -> re_Y (pad4 y ++ rest) = [(y, rest)].
Proof.
  intros H. unfold pad4, pad2. cbn [append]. unfold re_Y.
  destruct (digit_ok (y / 1000)) as [-> ->];
    [apply Nat.Div0.div_lt_upper_bound; lia |].
  destruct (digit_ok (y / 100 mod 10)) as [-> ->];
    [apply Nat.mod_upper_bound; lia |].
  destruct (digit_ok (y mod 100 / 10)) as [-> ->].
  { apply Nat.Div0.div_lt_upper_bound.
    pose proof (Nat.mod_upper_bound y 100). lia. }
  destruct (digit_ok ((y mod 100) mod 10)) as [-> ->];
    [apply Nat.mod_upper_bound; lia |].
  cbn [andb]. do 2 f_equal.
  pose proof (Nat.div_mod_eq y 1000).
  pose proof (Nat.div_mod_eq y 100).
  pose proof (Nat.div_mod_eq (y / 100) 10).
  pose proof (Nat.div_mod_eq (y mod 100) 10).
  pose proof (Nat.Div0.div_div y 100 10).
  change (100 * 10) with 1000 in *.
  lia.
Qed.

(** The cases [n < bound] one by one, each settled by evaluation. *)
Tactic Notation "each_case" ident(n) integer(bound) :=
  do bound (destruct n as [| n]; [try lia; eexists; reflexivity |]); lia.

Lemma re_m_pad2 (n : nat) (rest : string) :
  1 <= n <= 12 -> exists tl, re_m (pad2 n ++ rest) = (n, rest) :: tl.
Proof. intros H. each_case n 13. Qed.

Lemma re_d_pad2 (n : nat) (rest : string) :
  1 <= n <= 31 -> exists tl, re_d (pad2 n ++ rest) = (n, rest) :: tl.
Proof. intros H. each_case n 32. Qed.

Lemma re_H_pad2 (n : nat) (rest : string) :
  n <= 23 -> exists tl, re_H (pad2 n ++ rest) = (n, rest) :: tl.
Proof. intros H. each_case n 24. Qed.

Lemma re_M_pad2 (n : nat) :
  n <= 59 -> exists tl, re_M (pad2 n) = (n, EmptyString) :: tl.
Proof. intros H. each_case n 60. Qed.

Lemma days_in_month_le (y m : nat) : days_in_month y m <= 31.
Proof.
  unfold days_in_month.
  do 12 (destruct m as [| m]; [try destruct (is_leap y); lia |]). lia.
Qed.

Lemma valid_bounds (d : datetime) :
  valid d = true ->
  1 <= year d < 10 * 1000 /\ 1 <= month d <= 12 /\
  1 <= day d <= days_in_month (year d) (month d) /\
  hour d <= 23 /\ minute d <= 59 /\ second d <= 59.
Proof.
  unfold valid. rewrite !andb_true_iff, !Nat.leb_le, Nat.ltb_lt. tauto.
Qed.

Lemma valid_to_minute (d : datetime) :
  valid d = true -> valid (to_minute d) = true.
Proof.
  intros H. apply valid_bounds in H.
  unfold valid, to_minute. cbn [year month day hour minute second].
  rewrite !andb_true_iff, !Nat.leb_le, Nat.ltb_lt. lia.
Qed.

Lemma print_year_pad4 (y : nat) : 1000 <= y -> print_year y = pad4 y.
Proof.
  intros H. unfold print_year.
  destruct (Nat.ltb_spec y 10); [lia |].
  destruct (Nat.ltb_spec y 100); [lia |].
  destruct (Nat.ltb_spec y 1000); [lia | reflexivity].
Qed.

(** A timestamp with a year of four digits prints on twelve digits. *)
Lemma strftime_four_digit (d : datetime) :
  four_digit_year d = true ->
  strftime d
  = (pad4 (year d) ++ pad2 (month d) ++ pad2 (day d)
       ++ pad2 (hour d) ++ pad2 (minute d))%string.
Proof.
  unfold four_digit_year, strftime. intros H. apply Nat.leb_le in H.
  now rewrite (print_year_pad4 _ H).
Qed.

Lemma re_timestamp_strftime (d : datetime) :
  valid d = true -> four_digit_year d = true ->
  exists tl, re_timestamp (strftime d) = (to_minute d, EmptyString) :: tl.
Proof.
  intros H Hy. rewrite (strftime_four_digit d Hy). apply valid_bounds in H.
  destruct H as (HY & Hm & Hd & HH & HM & _).
  pose proof (days_in_month_le (year d) (month d)) as Hdm.
  unfold re_timestamp.
  rewrite re_Y_pad4 by lia. cbn [flat_map].
  destruct (re_m_pad2 (month d)
                      (pad2 (day d) ++ pad2 (hour d) ++ pad2 (minute d)))
    as [tm ->]; [lia |]. cbn [flat_map].
  destruct (re_d_pad2 (day d) (pad2 (hour d) ++ pad2 (minute d)))
    as [td ->]; [lia |]. cbn [flat_map].
  destruct (re_H_pad2 (hour d) (pad2 (minute d))) as [tH ->]; [lia |].
  cbn [flat_map].
  destruct (re_M_pad2 (minute d)) as [tM ->]; [lia |].
  cbn [map app]. eexists. reflexivity.
Qed.

(** Parsing what [strftime] printed gives the timestamp back, to the
    minute. *)
Lemma strptime_strftime (d : datetime) :
  valid d = true -> four_digit_year d = true ->
  strptime (strftime d) = Ok (to_minute d).
Proof.
  intros H Hy. unfold strptime.
  destruct (re_timestamp_strftime d H Hy) as [tl ->].
  now rewrite (valid_to_minute d H).
Qed.

Lemma strftime_to_minute (d : datetime) :
  strftime (to_minute d) = strftime d.
Proof. reflexivity. Qed.

End DatetimeFacts.

(** ** The [namedtuple] constructor and dict updates *)

Module NamedtupleFacts.

Import Namedtuple.

Lemma bind_fields_positional (specs : list (string * option value))
      (args : list value) (kwargs : dict value) :
  List.length specs = List.length args ->
  bind_fields specs args kwargs = Ok args.
Proof.
  revert args. induction specs as [| [f dflt] specs IH]; intros [| a args] H;
    try discriminate; [reflexivity |].
  cbn [bind_fields]. rewrite IH by (cbn in H; lia). reflexivity.
Qed.

Lemma field_specs_length (tt : tuple_type) :
  List.length (field_specs tt) = List.length (_fields tt).
Proof.
  unfold field_specs.
  rewrite length_combine, length_app, repeat_length, length_map. lia.
Qed.

(** One positional argument per field: the call returns them as given. *)
Lemma new_positional (tt : tuple_type) (args : list value) :
  List.length args = List.length (_fields tt) -> new tt args [] = Ok args.
Proof.
  intros H. unfold new. rewrite H, Nat.ltb_irrefl. cbn [forallb existsb negb].
  apply bind_fields_positional. now rewrite field_specs_length.
Qed.

(** Fewer positional arguments than fields without a default, and no
    keyword: a required argument is missing. *)
Lemma bind_fields_missing (fields : list string) (n : nat)
      (rest : list (option value)) (args : list value) :
  List.length args < n -> n <= List.length fields ->
  bind_fields (combine fields (repeat None n ++ rest)%list) args []
  = Raise TypeError.
Proof.
  revert n args. induction fields as [| f fields IH]; intros n args Ha Hn.
  - cbn in Hn. lia.
  - destruct n as [| n]; [lia |].
    cbn [repeat app combine bind_fields]. destruct args as [| a args].
    + reflexivity.
    + rewrite IH by (cbn in Ha, Hn; lia). reflexivity.
Qed.

Lemma new_wrong_count (tt : tuple_type) (args : list value) :
  List.length args < List.length (_fields tt) - List.length (_defaults tt)
  \/ List.length (_fields tt) < List.length args ->
  new tt args [] = Raise TypeError.
Proof.
  intros [Hfew | Hmany]; unfold new.
  - destruct (Nat.ltb_spec (List.length (_fields tt)) (List.length args));
      [reflexivity |].
    cbn [forallb existsb negb]. unfold field_specs.
    apply bind_fields_missing; lia.
  - apply Nat.ltb_lt in Hmany. now rewrite Hmany.
Qed.

Lemma dict_set_keeps {A : Type} (d : dict A) (k k' : string) (v : A) :
  In k' (map fst d) -> In k' (map fst (dict_set d k v)).
Proof.
  induction d as [| [k0 v0] d IH]; cbn [dict_set map fst In]; [tauto |].
  intros H. destruct (String.eqb k0 k); cbn [map fst In]; tauto.
Qed.

Lemma dict_set_adds {A : Type} (d : dict A) (k : string) (v : A) :
  In k (map fst (dict_set d k v)).
Proof.
  induction d as [| [k0 v0] d IH]; cbn [dict_set map fst In]; [tauto |].
  destruct (String.eqb_spec k0 k); cbn [map fst In]; tauto.
Qed.

Lemma dict_update_keeps {A : Type} (other d : dict A) (k : string) :
  In k (map fst d) -> In k (map fst (dict_update d other)).
Proof.
  revert d. induction other as [| [k0 v0] other IH]; intros d H; [exact H |].
  apply (IH (dict_set d k0 v0)). now apply dict_set_keeps.
Qed.

(** After [d.update(other)] every key of [other] is a key of [d]. *)
Lemma dict_update_adds {A : Type} (other d : dict A) (k : string) :
  In k (map fst other) -> In k (map fst (dict_update d other)).
Proof.
  revert d. induction other as [| [k0 v0] other IH]; intros d H; [easy |].
  cbn [map fst In] in H. destruct H as [<- | H].
  - apply (dict_update_keeps other (dict_set d k0 v0)). apply dict_set_adds.
  - apply (IH (dict_set d k0 v0)), H.
Qed.

(** A keyword that is no field is refused, whatever else is passed. *)
Lemma new_unknown_keyword (tt : tuple_type) (kwargs : dict value) (k : string) :
  In k (map fst kwargs) -> mem k (_fields tt) = false ->
  new tt [] kwargs = Raise TypeError.
Proof.
  intros Hin Hk. unfold new. cbn [List.length]. 
  destruct (Nat.ltb_spec (List.length (_fields tt)) 0) as [Hlt | _]; [lia |].
  destruct (forallb (fun kv => mem (fst kv) (_fields tt)) kwargs) eqn:Hall;
    [| reflexivity].
  apply in_map_iff in Hin as ([k' v] & <- & Hin).
  rewrite forallb_forall in Hall. apply Hall in Hin. cbn [fst] in *. congruence.
Qed.

End NamedtupleFacts.

(** ** Identities: comparison, decoding, copying, paths *)

Module IdentityFacts.

Import Datetime DatetimeFacts Str StrFacts NamedtupleFacts StringableTuple.

Lemma append_assoc (a b c : string) : ((a ++ b) ++ c = a ++ (b ++ c))%string.
Proof.
  induction a as [| x a IH]; cbn [append]; [reflexivity | now rewrite IH].
Qed.

Lemma tuple_eqb_eq (l1 l2 : list string) : tuple_eqb l1 l2 = true <-> l1 = l2.
Proof.
  revert l2. induction l1 as [| x l1 IH]; intros [| y l2]; cbn [tuple_eqb];
    try (split; [discriminate | congruence]); [tauto |].
  rewrite andb_true_iff, String.eqb_eq, IH. split; [intros []; congruence |].
  intros E. now inversion E.
Qed.

Lemma ltb_irrefl (x : string) : String.ltb x x = false.
Proof.
  unfold String.ltb. pose proof (String.compare_antisym x x) as H.
  destruct (String.compare x x); [reflexivity | discriminate | reflexivity].
Qed.

Lemma tuple_ltb_lt (l1 l2 : list string) :
  tuple_ltb l1 l2 = true <-> tuple_lt l1 l2.
Proof.
  split.
  - revert l2. induction l1 as [| x l1 IH]; intros [| y l2]; cbn [tuple_ltb];
      try discriminate; [constructor |].
    destruct (String.eqb_spec x y) as [-> | Hne]; intros H.
    + apply tuple_lt_tail, IH, H.
    + apply tuple_lt_head, H.
  - induction 1 as [y l | x y l1 l2 Hlt | x l1 l2 _ IH]; cbn [tuple_ltb].
    + reflexivity.
    + destruct (String.eqb_spec x y) as [-> | _]; [| exact Hlt].
      rewrite ltb_irrefl in Hlt. discriminate.
    + now rewrite String.eqb_refl.
Qed.

Lemma str_tuple_length (self : t) :
  List.length (str_tuple self) = List.length (params self).
Proof. apply length_map. Qed.

(** The wrapping of [str_tuple] in [tuple_type] never fails on an instance. *)
Lemma str_tuple_new (self : t) :
  wf self ->
  Namedtuple.new (tuple_type (cls self)) (map VStr (str_tuple self)) []
  = Ok (map VStr (str_tuple self)).
Proof.
  intros H. apply new_positional. now rewrite length_map, str_tuple_length.
Qed.

(** C1 (as stated) fails: [set_sat < set_sat1] holds, their first fields
    being ["SAT"] and ["SAT1"], while the encoded string of [set_sat1] is the
    smaller one, ['1'] sorting before ['_']. *)
Lemma lt_differs_from_encoded_order :
  __lt__ Sample.set_sat Sample.set_sat1 = true /\
  String.ltb (__str__ Sample.set_sat) (__str__ Sample.set_sat1) = false /\
  String.ltb (__str__ Sample.set_sat1) (__str__ Sample.set_sat) = true.
Proof. repeat split; reflexivity. Qed.

(** C1 (amended): [A == B] iff the tuples of the fields' strings are equal,
    and [A < B] iff the tuple of [A] comes first in the field-by-field order
    of tuples of strings; for two identities of one class whose field strings
    hold no ['_'], [A == B] iff the encoded strings are equal. *)
Theorem eq_lt_compare_str_tuple (A B : t) :
  (__eq__ A B = true <-> str_tuple A = str_tuple B) /\
  (__lt__ A B = true <-> tuple_lt (str_tuple A) (str_tuple B)) /\
  (cls A = cls B -> wf A -> wf B ->
   Forall no_sep (str_tuple A) -> Forall no_sep (str_tuple B) ->
   (__eq__ A B = true <-> __str__ A = __str__ B)).
Proof.
  split; [apply tuple_eqb_eq |]. split; [apply tuple_ltb_lt |].
  intros Hcls HA HB HsA HsB. unfold __eq__, __str__.
  rewrite tuple_eqb_eq. split; [now intros -> |].
  apply join_inj; try assumption.
  rewrite !str_tuple_length. unfold wf in HA, HB. congruence.
Qed.

Lemma eq_lt_compare_str_tuple_witness :
  (__eq__ Sample.set_sat Sample.set_sat1 = true
   <-> __str__ Sample.set_sat = __str__ Sample.set_sat1).
Proof.
  apply (eq_lt_compare_str_tuple Sample.set_sat Sample.set_sat1);
    try reflexivity; repeat constructor.
Defined.

(** The paths of any scene identity, from its directory and encoded string. *)
Lemma paths_layout (self : t) (band : string) :
  SceneId.metadata_path self
  = (SceneId.dir_path self ++ "/" ++ __str__ self ++ "_metadata.json")%string /\
  SceneId.band_path self band
  = (SceneId.dir_path self ++ "/" ++ __str__ self
     ++ "_" ++ band ++ ".tif")%string.
Proof.
  unfold SceneId.metadata_path, SceneId.band_path, SceneId.scenepath_prefix.
  unfold join. cbn [String.concat]. now rewrite !append_assoc.
Qed.

(** The scene set of a scene identity: its fields but [product] and [tag]. *)
Lemma sceneset_id_fields (p a b ts g : value) :
  SceneId.sceneset_id (mk NormalizedSceneId [p; a; b; ts; g])
  = Ok (mk NormalizedScenesetId [a; b; ts]).
Proof. reflexivity. Qed.

(** C2 (as stated) fails: the directory of the identity decoded from
    ['L1_SAT1_TILE42_202401011200_0'] is not ['L1/SAT1/TILE42/202401011200']. *)
Lemma dir_path_includes_tag :
  exists self,
    from_str NormalizedSceneId "L1_SAT1_TILE42_202401011200_0" "_" = Ok self /\
    SceneId.dir_path self <> "L1/SAT1/TILE42/202401011200".
Proof. exists Sample.scene_l1. split; [reflexivity | discriminate]. Qed.

(** C2 (amended): for the identity decoded from
    ['L1_SAT1_TILE42_202401011200_0'], [dir_path()] is
    ['L1/SAT1/TILE42/202401011200/0'] (all five fields, the tag included),
    [metadata_path()] is that directory followed by
    ['/L1_SAT1_TILE42_202401011200_0_metadata.json'], and [band_path('nir')]
    is the same scene prefix followed by ['_nir.tif']. *)
Theorem paths_of_decoded_scene :
  exists self,
    from_str NormalizedSceneId "L1_SAT1_TILE42_202401011200_0" "_" = Ok self /\
    SceneId.dir_path self = "L1/SAT1/TILE42/202401011200/0" /\
    SceneId.metadata_path self
    = (SceneId.dir_path self
       ++ "/L1_SAT1_TILE42_202401011200_0_metadata.json")%string /\
    SceneId.scenepath_prefix self
    = (SceneId.dir_path self ++ "/L1_SAT1_TILE42_202401011200_0")%string /\
    SceneId.band_path self "nir"
    = (SceneId.scenepath_prefix self ++ "_nir.tif")%string.
Proof.
  exists Sample.scene_l1. split; [reflexivity |].
  split; [reflexivity |]. split.
  - destruct (paths_layout Sample.scene_l1 "nir") as [-> _]. reflexivity.
  - split; reflexivity.
Qed.

(** C3 (as stated) fails: a string of four tokens is decoded against the
    five fields of [NormalizedSceneId]. *)
Lemma four_tokens_are_decoded :
  exists tokens self,
    split "L1_SAT1_TILE42_202401011200" "_" = Ok tokens /\
    List.length tokens <> List.length (fields_of NormalizedSceneId) /\
    from_str NormalizedSceneId "L1_SAT1_TILE42_202401011200" "_" = Ok self.
Proof.
  exists ["L1"; "SAT1"; "TILE42"; "202401011200"], Sample.scene_l1.
  split; [reflexivity |]. split; [discriminate | reflexivity].
Qed.

(** C3 (amended): [from_str] raises (the [TypeError] of the tuple class)
    for every string with more tokens than the class has fields, or fewer
    tokens than it has fields without a default. *)
Theorem from_str_wrong_token_count (c : class) (s sep : string)
        (tokens : list string) :
  split s sep = Ok tokens ->
  List.length tokens
  < List.length (fields_of c)
    - List.length (Namedtuple._defaults (tuple_type c))
  \/ List.length (fields_of c) < List.length tokens ->
  from_str c s sep = Raise TypeError.
Proof.
  intros Hs Hn. unfold from_str. rewrite Hs. cbn [bind].
  rewrite new_wrong_count; [reflexivity |].
  rewrite length_map. exact Hn.
Qed.

Lemma from_str_wrong_token_count_witness :
  from_str NormalizedScenesetId "SAT1_TILE42" "_" = Raise TypeError.
Proof.
  apply (from_str_wrong_token_count NormalizedScenesetId "SAT1_TILE42" "_"
                                    ["SAT1"; "TILE42"]).
  - reflexivity.
  - left. cbn. lia.
Defined.

Lemma digit_not_sep (k : nat) : k < 10 -> Ascii.eqb (digit k) "_" = false.
Proof. intros H. do 10 (destruct k as [| k]; [reflexivity |]). lia. Qed.

Lemma pad2_no_sep (n : nat) (rest : string) :
  n < 100 -> contains "_" (pad2 n ++ rest) = contains "_" rest.
Proof.
  intros H. unfold pad2. cbn [append contains].
  rewrite !digit_not_sep; [reflexivity | |].
  - apply Nat.mod_upper_bound. lia.
  - apply Nat.Div0.div_lt_upper_bound. lia.
Qed.

Lemma strftime_no_sep (d : datetime) :
  valid d = true -> four_digit_year d = true -> no_sep (strftime d).
Proof.
  intros H Hy. rewrite (strftime_four_digit d Hy). apply valid_bounds in H.
  destruct H as (HY & Hm & Hd & HH & HM & _).
  pose proof (days_in_month_le (year d) (month d)) as Hdm.
  unfold no_sep, pad4. cbn [append contains].
  rewrite !digit_not_sep, !pad2_no_sep; try lia.
  - unfold pad2. cbn [contains].
    rewrite !digit_not_sep; [reflexivity | |].
    + apply Nat.mod_upper_bound. lia.
    + apply Nat.Div0.div_lt_upper_bound. lia.
  - pose proof (Nat.mod_upper_bound (year d) 100). lia.
  - apply Nat.mod_upper_bound. lia.
  - apply Nat.Div0.div_lt_upper_bound. lia.
Qed.

(** Decoding the tokens of a scene-set identity. *)
Lemma from_str_sceneset (a b : string) (d : datetime) :
  no_sep a -> no_sep b -> valid d = true -> four_digit_year d = true ->
  from_str NormalizedScenesetId (join "_" [a; b; strftime d]) "_"
  = Ok (mk NormalizedScenesetId [VStr a; VStr b; VTime (to_minute d)]).
Proof.
  intros Ha Hb Hd Hy. unfold from_str.
  rewrite split_join;
    [| discriminate | repeat constructor; auto using strftime_no_sep].
  cbn -[strptime strftime]. rewrite (strptime_strftime d Hd Hy). reflexivity.
Qed.

(** Decoding the tokens of a scene identity, the tag given or left out. *)
Lemma from_str_scene (p a b : string) (d : datetime) (tag : list string) :
  no_sep p -> no_sep a -> no_sep b ->
  valid d = true -> four_digit_year d = true ->
  Forall no_sep tag -> List.length tag <= 1 ->
  from_str NormalizedSceneId (join "_" ([p; a; b; strftime d] ++ tag)) "_"
  = Ok (mk NormalizedSceneId
           [VStr p; VStr a; VStr b; VTime (to_minute d);
            VStr (hd "0"%string tag)]).
Proof.
  intros Hp Ha Hb Hd Hy Htag Hlen. unfold from_str.
  rewrite split_join;
    [| discriminate
     | repeat (apply Forall_cons; auto using strftime_no_sep) ].
  destruct tag as [| g [| ? ?]]; [| | cbn in Hlen; lia];
    cbn -[strptime strftime]; rewrite (strptime_strftime d Hd Hy);
    reflexivity.
Qed.

(** C4 (as stated) fails: the scene set [set_999], whose field strings hold
    no ['_'], encodes to ['SAT_T1_99901020304'], the year 999 printed on
    three digits; decoding reads the year from the first four, ['9990'],
    and returns the scene set of 20 October 9990, 03:04, which is not equal
    to the original. *)
Lemma roundtrip_fails_below_year_1000 :
  Forall no_sep (str_tuple Sample.set_999) /\
  __str__ Sample.set_999 = "SAT_T1_99901020304"%string /\
  exists self',
    from_str NormalizedScenesetId (__str__ Sample.set_999) "_" = Ok self' /\
    __eq__ self' Sample.set_999 = false /\
    __str__ self' = "SAT_T1_999010200304"%string.
Proof.
  split; [repeat (apply Forall_cons; [reflexivity |]); apply Forall_nil |].
  split; [reflexivity |].
  exists (mk NormalizedScenesetId
             [VStr "SAT"; VStr "T1";
              VTime (mk_datetime (999 * 10) 10 20 3 4 0)]).
  split; [reflexivity |]. split; reflexivity.
Qed.

(** C4 (amended): for a field tuple of [NormalizedScenesetId] (three fields)
    or of [NormalizedSceneId] (five fields) whose field strings hold no
    ['_'] and whose timestamp is a minute-resolution timestamp with a year of
    four digits (1000 to 9999), decoding the encoded string succeeds and the
    result equals the original. *)
Theorem from_str_roundtrip (self : t) :
  cls self = NormalizedScenesetId \/ cls self = NormalizedSceneId ->
  valid_identity self ->
  exists self',
    from_str (cls self) (__str__ self) "_" = Ok self' /\
    __eq__ self' self = true /\
    __str__ self' = __str__ self.
Proof.
  destruct self as [c ps]. cbn [cls]. intros Hc (Hwf & Hsep & Hts).
  unfold wf in Hwf. cbn [cls params] in Hwf, Hts.
  unfold __eq__, __str__, str_tuple in *. cbn [params] in *.
  destruct Hc as [-> | ->].
  - destruct ps as [| a [| b [| ts [| ? ?]]]]; try discriminate Hwf.
    destruct (Hts "timestamp"%string ts eq_refl eq_refl)
      as (d & Hd & Hy & Hprint).
    cbn [map] in *. rewrite Hprint in *.
    inversion Hsep as [| ? ? Ha Hsep1]; subst.
    inversion Hsep1 as [| ? ? Hb _]; subst.
    rewrite (from_str_sceneset _ _ d Ha Hb Hd Hy).
    eexists. split; [reflexivity |]. cbn [params map _tostr].
    rewrite strftime_to_minute. split; [| reflexivity].
    now apply tuple_eqb_eq.
  - destruct ps as [| p [| a [| b [| ts [| g [| ? ?]]]]]]; try discriminate Hwf.
    destruct (Hts "timestamp"%string ts eq_refl eq_refl)
      as (d & Hd & Hy & Hprint).
    cbn [map] in *. rewrite Hprint in *.
    inversion Hsep as [| ? ? Hp Hsep1]; subst.
    inversion Hsep1 as [| ? ? Ha Hsep2]; subst.
    inversion Hsep2 as [| ? ? Hb Hsep3]; subst.
    inversion Hsep3 as [| ? ? _ Hsep4]; subst.
    pose proof (from_str_scene _ _ _ d [_tostr g] Hp Ha Hb Hd Hy Hsep4
                               (le_n 1)) as H.
    cbn [app hd] in H. rewrite H.
    eexists. split; [reflexivity |]. cbn [params map _tostr hd].
    rewrite strftime_to_minute. split; [| reflexivity].
    now apply tuple_eqb_eq.
Qed.

Lemma from_str_roundtrip_witness :
  exists self',
    from_str NormalizedSceneId "L1_SAT1_TILE42_202401011200_0" "_" = Ok self' /\
    __eq__ self' Sample.scene_l1 = true /\
    __str__ self' = "L1_SAT1_TILE42_202401011200_0"%string.
Proof.
  apply (from_str_roundtrip Sample.scene_l1).
  - right. reflexivity.
  - split; [reflexivity |]. split; [repeat constructor |].
    intros f v Hf Hv. cbn in Hf. rewrite orb_false_r in Hf.
    apply String.eqb_eq in Hf. subst f. cbn in Hv. inversion Hv; subst v.
    exists Sample.noon. repeat split; reflexivity.
Defined.

(** C6: [copy_with] raises (the [TypeError] of the tuple class) whenever
    one of the overrides is named after no field of the identity. *)
Theorem copy_with_unknown_field (self : t) (kwargs : dict value)
        (name : string) :
  In name (map fst kwargs) ->
  mem name (fields_of (cls self)) = false ->
  copy_with self kwargs = Raise TypeError.
Proof.
  intros Hin Hname. unfold copy_with, __init__.
  rewrite (new_unknown_keyword _ _ name); [reflexivity | | exact Hname].
  now apply dict_update_adds.
Qed.

Lemma copy_with_unknown_field_witness :
  copy_with Sample.scene_l1 [("bogus"%string, VStr "x")] = Raise TypeError.
Proof.
  apply (copy_with_unknown_field Sample.scene_l1 _ "bogus").
  - left. reflexivity.
  - reflexivity.
Defined.

(** C8: on a scene identity, [copy_with(tag='2')] returns an identity of
    the same class whose tag is ['2'] and whose other fields are those of
    the original, so that its tuple of strings, and its encoded string, are
    the original's with the last token replaced by ['2']. *)
Theorem copy_with_tag (self : t) :
  cls self = NormalizedSceneId -> wf self ->
  exists self',
    copy_with self [("tag"%string, VStr "2")] = Ok self' /\
    cls self' = NormalizedSceneId /\
    __getattr__ self' "tag" = Ok (VStr "2") /\
    (forall f, f <> "tag"%string -> __getattr__ self' f = __getattr__ self f) /\
    str_tuple self' = (firstn 4 (str_tuple self) ++ ["2"%string])%list /\
    __str__ self' = join "_" (firstn 4 (str_tuple self) ++ ["2"%string])%list /\
    exists tag, str_tuple self = (firstn 4 (str_tuple self) ++ [tag])%list.
Proof.
  destruct self as [c ps]. cbn [cls]. intros -> Hwf.
  unfold wf in Hwf. cbn [cls params] in Hwf.
  destruct ps as [| p [| a [| b [| ts [| g [| ? ?]]]]]]; try discriminate Hwf.
  exists (mk NormalizedSceneId [p; a; b; ts; VStr "2"]).
  split; [reflexivity |]. split; [reflexivity |]. split; [reflexivity |].
  split.
  - intros f Hf. unfold __getattr__. cbn [cls params fields_of].
    change (fields_of NormalizedSceneId)
      with ["product"; "satellite"; "tile_id"; "timestamp"; "tag"]%string.
    cbn [Namedtuple.getattr].
    repeat (destruct (String.eqb _ f) eqn:?; [reflexivity |]).
    destruct (String.eqb_spec "tag" f); [congruence | reflexivity].
  - split; [reflexivity |]. split; [reflexivity |].
    exists (_tostr g). reflexivity.
Qed.

Lemma copy_with_tag_witness :
  exists self',
    copy_with Sample.scene_l1 [("tag"%string, VStr "2")] = Ok self' /\
    __str__ self' = "L1_SAT1_TILE42_202401011200_2"%string.
Proof.
  destruct (copy_with_tag Sample.scene_l1 eq_refl eq_refl)
    as (self' & Hc & _ & _ & _ & _ & Hs & _).
  exists self'. split; [exact Hc | exact Hs].
Defined.

(** C9: a string of four tokens, the fourth a minute timestamp, is decoded
    against the five fields of [NormalizedSceneId]: the tag is the default
    ['0'], and the result encodes to the input followed by ['_0']. *)
Theorem from_str_default_tag (p a b : string) (d : datetime) :
  no_sep p -> no_sep a -> no_sep b ->
  valid d = true -> four_digit_year d = true ->
  exists self,
    from_str NormalizedSceneId (join "_" [p; a; b; strftime d]) "_" = Ok self /\
    __getattr__ self "tag" = Ok (VStr "0") /\
    __str__ self = (join "_" [p; a; b; strftime d] ++ "_0")%string.
Proof.
  intros Hp Ha Hb Hd Hy.
  pose proof (from_str_scene p a b d [] Hp Ha Hb Hd Hy (Forall_nil _)
                             (le_S _ _ (le_n 0))) as H.
  cbn [app hd] in H. rewrite H. eexists. split; [reflexivity |].
  split; [reflexivity |].
  unfold __str__, str_tuple, join. cbn [params map _tostr String.concat].
  rewrite strftime_to_minute, !append_assoc. reflexivity.
Qed.

Lemma from_str_default_tag_witness :
  exists self,
    from_str NormalizedSceneId "L1_SAT1_TILE42_202401011200" "_" = Ok self /\
    __getattr__ self "tag" = Ok (VStr "0") /\
    __str__ self = "L1_SAT1_TILE42_202401011200_0"%string.
Proof.
  apply (from_str_default_tag "L1" "SAT1" "TILE42" Sample.noon); reflexivity.
Defined.

End IdentityFacts.

(** ** Lazy scenes: construction and the cached metadata *)

Module SceneFacts.

Import FilebasedScene.

Section Facts.

Context {json : Type} (E : env json).

Lemma init_band_urls (bu : option (dict string)) (files : list string)
      (k : M (json := json) unit) :
  bindM (match bu with
         | Some b => modify (set_band_urls b)
         | None => ret tt
         end) (fun _ => k) (mk_state blank files)
  = k (mk_state (started bu) files).
Proof. destruct bu; reflexivity. Qed.

(** An access with the value already on the instance: no file is opened and
    nothing changes. *)
Lemma metadata_cached (st : state) (m : json) :
  metadata_attr (self st) = Some m -> metadata E st = (Ok m, st).
Proof.
  intros H. unfold metadata, cached_property, bindM, get_self.
  now rewrite H.
Qed.

Lemma metadata_accesses_cached (n : nat) (st : state) (m : json) :
  metadata_attr (self st) = Some m ->
  metadata_accesses E n st = (repeat (Ok m) n, st).
Proof.
  intros H. induction n as [| n IH]; [reflexivity |].
  cbn [metadata_accesses repeat]. now rewrite (metadata_cached st m H), IH.
Qed.

(** The first access on an instance that knows its metadata file. *)
Lemma metadata_first (s : scene) (files : list string) (f text : string)
      (m : json) :
  metadata_attr s = None -> _metadata_path s = Some f ->
  read_file E f = Ok text -> json_loads E text = Ok m ->
  metadata E (mk_state s files)
  = (Ok m, mk_state (set_metadata m s) (files ++ [f])%list).
Proof.
  intros Hm Hp Hread Hparse.
  unfold metadata, cached_property, bindM, get_self.
  cbn [self]. rewrite Hm. unfold attr. cbn [self]. rewrite Hp.
  unfold open_read. rewrite Hread. unfold lift. rewrite Hparse.
  reflexivity.
Qed.

(** An access on an instance without [_metadata_path]: the attribute lookup
    raises before any file is opened, and nothing is stored. *)
Lemma metadata_unset (st : state) :
  metadata_attr (self st) = None -> _metadata_path (self st) = None ->
  metadata E st = (Raise AttributeError, st).
Proof.
  intros Hm Hp. unfold metadata, cached_property, bindM, get_self, attr.
  now rewrite Hm, Hp.
Qed.

Lemma metadata_accesses_unset (n : nat) (st : state) :
  metadata_attr (self st) = None -> _metadata_path (self st) = None ->
  metadata_accesses E n st = (repeat (Raise AttributeError) n, st).
Proof.
  intros Hm Hp. induction n as [| n IH]; [reflexivity |].
  cbn [metadata_accesses repeat]. now rewrite (metadata_unset st Hm Hp), IH.
Qed.

Lemma construct_dir (path : string) (bu : option (dict string))
      (files : list string) :
  isfile E path = false -> isdir E path = true ->
  construct E path bu files
  = match glob E (os_path_join path "*_metadata.json") with
    | [f] => (Ok (set_metadata_path f (set_path path (started bu))), files)
    | _ => (Raise AssertionError, files)
    end.
Proof.
  intros Hf Hd. unfold construct, __init__. rewrite init_band_urls, Hf, Hd.
  destruct (glob E (os_path_join path "*_metadata.json")) as [| f [| g l]];
    reflexivity.
Qed.

(** C5: on a directory, the constructor raises (the [AssertionError] of the
    [assert]) and hands back no instance when [glob] finds no file or several
    files named [*_metadata.json] there; when it finds exactly one, the
    constructor returns an instance that holds its path.  No file is opened
    either way. *)
Theorem construct_directory (path : string) (bu : option (dict string))
        (files : list string) :
  isfile E path = false -> isdir E path = true ->
  (List.length (glob E (os_path_join path "*_metadata.json")) <> 1 ->
   construct E path bu files = (Raise AssertionError, files)) /\
  (List.length (glob E (os_path_join path "*_metadata.json")) = 1 ->
   exists s,
     construct E path bu files = (Ok s, files) /\
     _metadata_path s
     = nth_error (glob E (os_path_join path "*_metadata.json")) 0).
Proof.
  intros Hf Hd. rewrite (construct_dir path bu files Hf Hd).
  destruct (glob E (os_path_join path "*_metadata.json")) as [| f [| g l]];
    cbn [List.length]; split; intros H; try lia; try reflexivity.
  eexists. split; reflexivity.
Qed.

(** C7: over a directory with exactly one metadata file, the constructor
    opens no file and leaves the metadata unset; the first access to
    [.metadata] opens that file, once, and returns what it parses to; any
    number of accesses, the first included, return that same value and leave
    the file opened exactly once. *)
Theorem metadata_read_once (path : string) (bu : option (dict string))
        (files : list string) (f text : string) (m : json) :
  isfile E path = false -> isdir E path = true ->
  glob E (os_path_join path "*_metadata.json") = [f] ->
  read_file E f = Ok text -> json_loads E text = Ok m ->
  exists s,
    construct E path bu files = (Ok s, files) /\
    metadata_attr s = None /\
    metadata E (mk_state s files)
    = (Ok m, mk_state (set_metadata m s) (files ++ [f])%list) /\
    forall n,
      metadata_accesses E (S n) (mk_state s files)
      = (repeat (Ok m) (S n), mk_state (set_metadata m s) (files ++ [f])%list).
Proof.
  intros Hf Hd Hg Hread Hparse.
  exists (set_metadata_path f (set_path path (started bu))).
  set (s := set_metadata_path f (set_path path (started bu))).
  assert (Hfirst :
    metadata E (mk_state s files)
    = (Ok m, mk_state (set_metadata m s) (files ++ [f])%list)).
  { apply (metadata_first _ files f text m); try assumption;
      subst s; destruct bu; reflexivity. }
  split; [rewrite (construct_dir path bu files Hf Hd), Hg; reflexivity |].
  split; [destruct bu; reflexivity |].
  split; [exact Hfirst |].
  intros n. cbn [metadata_accesses]. rewrite Hfirst.
  now rewrite (metadata_accesses_cached n _ m).
Qed.

(** C10: on a path that is neither a file nor a directory the constructor
    raises nothing, opens nothing and returns an instance without
    [_metadata_path]; every access to [.metadata] on it raises
    ([AttributeError]), stores nothing and opens no file. *)
Theorem construct_missing_path (path : string) (bu : option (dict string))
        (files : list string) :
  isfile E path = false -> isdir E path = false ->
  exists s,
    construct E path bu files = (Ok s, files) /\
    _metadata_path s = None /\
    forall n files',
      metadata_accesses E n (mk_state s files')
      = (repeat (Raise AttributeError) n, mk_state s files').
Proof.
  intros Hf Hd. exists (started bu).
  split.
  - unfold construct, __init__. rewrite init_band_urls, Hf, Hd. reflexivity.
  - split; [destruct bu; reflexivity |].
    intros n files'. apply metadata_accesses_unset; destruct bu; reflexivity.
Qed.

End Facts.

Lemma construct_directory_witness :
  construct Sample.disk "scenes/empty" None [] = (Raise AssertionError, []) /\
  construct Sample.disk "scenes/two" None [] = (Raise AssertionError, []) /\
  exists s,
    construct Sample.disk "scenes/a" None [] = (Ok s, []) /\
    _metadata_path s = Some Sample.meta_file.
Proof.
  split; [| split].
  - apply (construct_directory Sample.disk "scenes/empty" None []);
      [reflexivity | reflexivity | discriminate].
  - apply (construct_directory Sample.disk "scenes/two" None []);
      [reflexivity | reflexivity | discriminate].
  - apply (construct_directory Sample.disk "scenes/a" None []); reflexivity.
Defined.

Lemma metadata_read_once_witness :
  exists s,
    construct Sample.disk "scenes/a" None [] = (Ok s, []) /\
    metadata_accesses Sample.disk 3 (mk_state s [])
    = (repeat (Ok "L1_SAT1_TILE42_202401011200_0"%string) 3,
       mk_state (set_metadata "L1_SAT1_TILE42_202401011200_0"%string s)
                [Sample.meta_file]).
Proof.
  destruct (metadata_read_once Sample.disk "scenes/a" None [] Sample.meta_file
              "L1_SAT1_TILE42_202401011200_0" "L1_SAT1_TILE42_202401011200_0"
              eq_refl eq_refl eq_refl eq_refl eq_refl)
    as (s & Hc & _ & _ & Hn).
  exists s. split; [exact Hc | exact (Hn 2)].
Defined.

Lemma construct_missing_path_witness :
  exists s,
    construct Sample.disk "scenes/nowhere" None [] = (Ok s, []) /\
    _metadata_path s = None /\
    metadata Sample.disk (mk_state s [])
    = (Raise AttributeError, mk_state s []).
Proof.
  destruct (construct_missing_path Sample.disk "scenes/nowhere" None []
              eq_refl eq_refl) as (s & Hc & Hp & Hn).
  exists s. split; [exact Hc |]. split; [exact Hp |].
  pose proof (Hn 1 []) as H1. cbn [metadata_accesses repeat] in H1.
  destruct (metadata Sample.disk (mk_state s [])) as [r st].
  now inversion H1.
Defined.

End SceneFacts.

(** * Further properties of the module *)

(** ** Instances keep one item per field; [copy_with] and [sceneset_id] *)

Module TupleFacts.

Import Namedtuple NamedtupleFacts StringableTuple.

Lemma bind_ok {A B : Type} (r : result A) (k : A -> result B) (b : B) :
  bind r k = Ok b -> exists a, r = Ok a /\ k a = Ok b.
Proof. destruct r as [a | e]; [eauto | discriminate]. Qed.

Lemma bind_fields_length (specs : list (string * option value))
      (args : list value) (kwargs : dict value) (vs : list value) :
  bind_fields specs args kwargs = Ok vs -> List.length vs = List.length specs.
Proof.
  revert args vs. induction specs as [| [f dflt] specs IH]; intros args vs H.
  - cbn in H. now inversion H.
  - cbn [bind_fields] in H. destruct args as [| a args].
    + apply bind_ok in H as (v & _ & H). apply bind_ok in H as (ws & Hw & H).
      inversion H; subst. cbn [List.length]. f_equal. exact (IH _ _ Hw).
    + apply bind_ok in H as (ws & Hw & H).
      inversion H; subst. cbn [List.length]. f_equal. exact (IH _ _ Hw).
Qed.

(** What the tuple class returns has one item per field. *)
Lemma new_length (tt : Namedtuple.tuple_type) (args : list value)
      (kwargs : dict value)
      (vs : list value) :
  new tt args kwargs = Ok vs -> List.length vs = List.length (_fields tt).
Proof.
  unfold new. intros H.
  destruct (List.length (_fields tt) <? List.length args); [discriminate |].
  destruct (negb _); [discriminate |].
  destruct (existsb _ kwargs); [discriminate |].
  rewrite <- field_specs_length. exact (bind_fields_length _ _ _ _ H).
Qed.

Lemma init_wf (c : class) (args : list value) (kwargs : dict value) (self : t) :
  __init__ c args kwargs = Ok self -> wf self /\ cls self = c.
Proof.
  unfold __init__. intros H. apply bind_ok in H as (p & Hp & H).
  inversion H; subst. split; [| reflexivity].
  unfold wf. cbn [params cls]. exact (new_length _ _ _ _ Hp).
Qed.

(** X1: whatever builds an identity ([__init__], [from_str], [copy_with],
    [sceneset_id]) returns one of the class asked for, with exactly one item
    per field of that class. *)
Theorem built_identities_wf (c : class) (self : t) :
  (exists args kwargs, __init__ c args kwargs = Ok self)
  \/ (exists s sep, from_str c s sep = Ok self)
  \/ (exists other kwargs, cls other = c /\ copy_with other kwargs = Ok self)
  \/ (exists scene, c = NormalizedScenesetId
                     /\ SceneId.sceneset_id scene = Ok self) ->
  wf self /\ cls self = c.
Proof.
  intros [(args & kw & H) | [(s & sep & H) | [(o & kw & <- & H) | (o & -> & H)]]].
  - exact (init_wf _ _ _ _ H).
  - unfold from_str in H.
    apply bind_ok in H as (tokens & _ & H).
    apply bind_ok in H as (st & _ & H).
    apply bind_ok in H as (args & _ & H).
    exact (init_wf _ _ _ _ H).
  - exact (init_wf _ _ _ _ H).
  - unfold SceneId.sceneset_id in H. apply bind_ok in H as (args & _ & H).
    exact (init_wf _ _ _ _ H).
Qed.

Lemma built_identities_wf_witness :
  wf Sample.scene_l1 /\ cls Sample.scene_l1 = NormalizedSceneId.
Proof.
  apply (built_identities_wf NormalizedSceneId Sample.scene_l1).
  right. left. exists "L1_SAT1_TILE42_202401011200"%string, "_"%string.
  reflexivity.
Defined.

Lemma mem_In (k : string) (l : list string) : mem k l = true <-> In k l.
Proof.
  unfold mem. rewrite existsb_exists. split.
  - intros (x & Hx & E). apply String.eqb_eq in E. now subst.
  - intros H. exists k. split; [exact H | apply String.eqb_refl].
Qed.

Lemma dict_get_set {A : Type} (d : dict A) (k f : string) (v : A) :
  dict_get (dict_set d k v) f
  = if String.eqb k f then Some v else dict_get d f.
Proof.
  induction d as [| [k0 v0] d IH]; cbn [dict_set dict_get]; [reflexivity |].
  destruct (String.eqb_spec k0 k) as [-> | Hk]; cbn [dict_get].
  - now destruct (String.eqb k f).
  - rewrite IH. destruct (String.eqb_spec k0 f) as [-> | Hf]; [| reflexivity].
    destruct (String.eqb_spec k f); [congruence | reflexivity].
Qed.

Lemma dict_get_notin {A : Type} (d : dict A) (f : string) :
  ~ In f (map fst d) -> dict_get d f = None.
Proof.
  induction d as [| [k v] d IH]; cbn [map fst In dict_get]; [reflexivity |].
  intros H. destruct (String.eqb_spec k f); [tauto | apply IH; tauto].
Qed.

Lemma dict_set_keys_inv {A : Type} (d : dict A) (k k' : string) (v : A) :
  In k' (map fst (dict_set d k v)) -> k' = k \/ In k' (map fst d).
Proof.
  induction d as [| [k0 v0] d IH]; cbn [dict_set map fst In].
  - intros [<- | []]. now left.
  - destruct (String.eqb k0 k); cbn [map fst In]; tauto.
Qed.

Lemma dict_update_keys_inv {A : Type} (other d : dict A) (k : string) :
  In k (map fst (dict_update d other)) ->
  In k (map fst d) \/ In k (map fst other).
Proof.
  revert d. induction other as [| [k0 v0] other IH]; intros d H; [now left |].
  apply (IH (dict_set d k0 v0)) in H. cbn [map fst In].
  destruct H as [H | H]; [| tauto].
  apply dict_set_keys_inv in H. destruct H as [-> | H]; tauto.
Qed.

(** Lookup after [d.update(other)], the keys of [other] being distinct as
    those of keyword arguments are. *)
Lemma dict_get_update {A : Type} (other d : dict A) (f : string) :
  NoDup (map fst other) ->
  dict_get (dict_update d other) f
  = match dict_get other f with
    | Some v => Some v
    | None => dict_get d f
    end.
Proof.
  revert d. induction other as [| [k v] other IH]; intros d Hnd;
    [reflexivity |].
  cbn [map fst] in Hnd. inversion Hnd as [| ? ? Hk Hnd']; subst.
  change (dict_update d ((k, v) :: other))
    with (dict_update (dict_set d k v) other).
  rewrite (IH _ Hnd'), dict_get_set. cbn [dict_get].
  destruct (String.eqb_spec k f) as [-> | _]; [| reflexivity].
  now rewrite (dict_get_notin other f Hk).
Qed.

(** Attribute access on a tuple is lookup in its [_asdict()]. *)
Lemma getattr_dict_get (fields : list string) (vals : list value)
      (f : string) :
  getattr fields vals f
  = match dict_get (combine fields vals) f with
    | Some v => Ok v
    | None => Raise AttributeError
    end.
Proof.
  revert vals. induction fields as [| f0 fields IH]; intros [| v vals];
    cbn [getattr combine dict_get]; try reflexivity.
  destruct (String.eqb f0 f); [reflexivity | apply IH].
Qed.

Lemma dict_get_combine (fields : list string) (vals : list value)
      (f : string) :
  List.length fields = List.length vals -> In f fields ->
  exists v, dict_get (combine fields vals) f = Some v.
Proof.
  revert vals. induction fields as [| f0 fields IH]; intros [| v vals] Hlen Hin;
    try discriminate; [destruct Hin |].
  cbn [combine dict_get]. destruct (String.eqb_spec f0 f) as [-> | Hne];
    [eauto |].
  apply IH; [cbn in Hlen; lia |]. destruct Hin; [congruence | assumption].
Qed.

Lemma map_fst_combine {A B : Type} (l1 : list A) (l2 : list B) :
  List.length l1 <= List.length l2 -> map fst (combine l1 l2) = l1.
Proof.
  revert l2. induction l1 as [| x l1 IH]; intros [| y l2] H;
    cbn [combine map fst]; try reflexivity; [cbn in H; lia |].
  f_equal. apply IH. cbn in H. lia.
Qed.

Lemma field_specs_fst (tt : Namedtuple.tuple_type) :
  map fst (field_specs tt) = _fields tt.
Proof.
  unfold field_specs. apply map_fst_combine.
  rewrite length_app, repeat_length, length_map. lia.
Qed.

(** With no positional argument, each field found among the keywords takes
    its value there. *)
Lemma bind_fields_kw (specs : list (string * option value))
      (kwargs : dict value) (g : string -> value) :
  (forall f, In f (map fst specs) -> dict_get kwargs f = Some (g f)) ->
  bind_fields specs [] kwargs = Ok (map g (map fst specs)).
Proof.
  induction specs as [| [f dflt] specs IH]; intros H; [reflexivity |].
  cbn [bind_fields map fst]. rewrite (H f) by now left.
  cbn [bind]. rewrite IH; [reflexivity |].
  intros f' Hf'. apply H. now right.
Qed.

Lemma getattr_map (fields : list string) (g : string -> value) (f : string) :
  In f fields -> getattr fields (map g fields) f = Ok (g f).
Proof.
  induction fields as [| f0 fields IH]; intros Hin; [destruct Hin |].
  cbn [map getattr]. destruct (String.eqb_spec f0 f) as [-> | Hne];
    [reflexivity |].
  apply IH. destruct Hin; [congruence | assumption].
Qed.

Lemma copy_with_ok (self : t) (kwargs : dict value) :
  wf self ->
  NoDup (map fst kwargs) ->
  (forall k, In k (map fst kwargs) -> mem k (fields_of (cls self)) = true) ->
  copy_with self kwargs
  = Ok (mk (cls self) (map (updated self kwargs) (fields_of (cls self)))).
Proof.
  intros Hwf Hnd Hkeys. unfold copy_with, __init__, new.
  set (data := dict_update _ kwargs).
  cbn [List.length firstn].
  destruct (Nat.ltb_spec (List.length (_fields (tuple_type (cls self)))) 0)
    as [Hlt | _]; [lia |].
  assert (Hall : forallb (fun kv => mem (fst kv) (_fields (tuple_type (cls self))))
                         data = true).
  { apply forallb_forall. intros [k v] Hin. cbn [fst].
    assert (Hk : In k (map fst data)) by (apply in_map_iff; now exists (k, v)).
    apply dict_update_keys_inv in Hk. destruct Hk as [Hk | Hk].
    - apply mem_In. unfold _asdict in Hk.
      apply in_map_iff in Hk as ([k' v'] & <- & Hk). cbn [fst].
      exact (in_combine_l _ _ _ _ Hk).
    - exact (Hkeys k Hk). }
  rewrite Hall. cbn [negb].
  assert (Hno : existsb (fun kv : string * value => mem (fst kv) []) data = false).
  { clear. induction data as [| kv data IH]; [reflexivity | exact IH]. }
  rewrite Hno.
  rewrite (bind_fields_kw _ data (updated self kwargs)).
  - now rewrite field_specs_fst.
  - intros f Hf. rewrite field_specs_fst in Hf. unfold updated. fold data.
    destruct (dict_get data f) as [v |] eqn:Hdata; [reflexivity |].
    unfold data in Hdata. rewrite (dict_get_update _ _ _ Hnd) in Hdata.
    destruct (dict_get kwargs f); [discriminate |].
    destruct (dict_get_combine _ (params self) f (eq_sym Hwf) Hf) as [v Hv].
    unfold _asdict in Hdata. unfold fields_of in Hv. congruence.
Qed.

(** X2: on an identity, [copy_with] given overrides that all name fields
    returns an identity of the same class in which each overridden field has
    the value given and every other field the value it had. *)
Theorem copy_with_overrides (self : t) (kwargs : dict value) :
  wf self ->
  NoDup (map fst kwargs) ->
  (forall k, In k (map fst kwargs) -> mem k (fields_of (cls self)) = true) ->
  exists self',
    copy_with self kwargs = Ok self' /\
    cls self' = cls self /\
    wf self' /\
    forall f, mem f (fields_of (cls self)) = true ->
              __getattr__ self' f
              = match dict_get kwargs f with
                | Some v => Ok v
                | None => __getattr__ self f
                end.
Proof.
  intros Hwf Hnd Hkeys. eexists.
  split; [exact (copy_with_ok self kwargs Hwf Hnd Hkeys) |].
  split; [reflexivity |].
  split; [unfold wf; cbn [params cls]; apply length_map |].
  intros f Hf. apply mem_In in Hf. unfold __getattr__. cbn [cls params].
  unfold fields_of in *. rewrite (getattr_map _ _ _ Hf), getattr_dict_get.
  unfold updated, _asdict. rewrite (dict_get_update _ _ _ Hnd).
  destruct (dict_get kwargs f) as [v |]; [reflexivity |].
  destruct (dict_get_combine (_fields (tuple_type (cls self))) (params self) f
                             (eq_sym Hwf) Hf) as [v ->].
  reflexivity.
Qed.

Lemma copy_with_overrides_witness :
  exists self',
    copy_with Sample.scene_l1
              [("product"%string, VStr "L2"); ("tag"%string, VStr "7")]
    = Ok self' /\
    __getattr__ self' "tag" = Ok (VStr "7") /\
    __getattr__ self' "tile_id" = Ok (VStr "TILE42").
Proof.
  destruct (copy_with_overrides Sample.scene_l1
              [("product"%string, VStr "L2"); ("tag"%string, VStr "7")])
    as (self' & Hc & _ & _ & Hf).
  - reflexivity.
  - repeat constructor; cbn; intuition discriminate.
  - intros k [<- | [<- | []]]; reflexivity.
  - exists self'. split; [exact Hc |].
    split; [exact (Hf "tag"%string eq_refl) | exact (Hf "tile_id"%string eq_refl)].
Defined.

Lemma lookup_own (fields : list string) (vals : list value) (dflt : value) :
  NoDup fields -> List.length fields = List.length vals ->
  map (fun f => match dict_get (combine fields vals) f with
                | Some v => v
                | None => dflt
                end) fields = vals.
Proof.
  revert vals. induction fields as [| f0 fields IH]; intros [| v vals] Hnd Hlen;
    try discriminate; [reflexivity |].
  inversion Hnd as [| ? ? Hf0 Hnd']; subst.
  cbn [combine map dict_get]. rewrite String.eqb_refl. f_equal.
  etransitivity; [| apply (IH vals Hnd'); cbn in Hlen; lia].
  apply map_ext_in. intros f Hf.
  destruct (String.eqb_spec f0 f); [congruence | reflexivity].
Qed.

(** X3: [copy_with()] without overrides returns the identity itself, the
    field names of the class being distinct. *)
Theorem copy_with_nothing (self : t) :
  wf self -> NoDup (fields_of (cls self)) -> copy_with self [] = Ok self.
Proof.
  intros Hwf Hnd. rewrite (copy_with_ok self [] Hwf (NoDup_nil _)) by easy.
  destruct self as [c ps]. cbn [cls params] in *. f_equal. f_equal.
  unfold updated, _asdict. cbn [cls params dict_update fold_left].
  apply lookup_own; [exact Hnd | now symmetry].
Qed.

Lemma copy_with_nothing_witness :
  copy_with Sample.set_sat [] = Ok Sample.set_sat.
Proof.
  apply (copy_with_nothing Sample.set_sat); [reflexivity |].
  repeat constructor; cbn; intuition discriminate.
Defined.

(** X4: the scene set of a scene identity is a [NormalizedScenesetId] whose
    fields are the scene's satellite, tile and timestamp, so that the scene
    encodes to product, ['_'], the encoded scene set, ['_'], tag. *)
Theorem sceneset_id_projection (self : t) :
  cls self = NormalizedSceneId -> wf self ->
  exists ss product tag,
    SceneId.sceneset_id self = Ok ss /\
    cls ss = NormalizedScenesetId /\
    str_tuple self = (product :: str_tuple ss ++ [tag])%list /\
    __str__ self = (product ++ "_" ++ __str__ ss ++ "_" ++ tag)%string /\
    forall f, mem f (fields_of NormalizedScenesetId) = true ->
              __getattr__ ss f = __getattr__ self f.
Proof.
  destruct self as [c ps]. cbn [cls]. intros -> Hwf.
  unfold wf in Hwf. cbn [cls params] in Hwf.
  destruct ps as [| p [| a [| b [| ts [| g [| ? ?]]]]]]; try discriminate Hwf.
  exists (mk NormalizedScenesetId [a; b; ts]), (_tostr p), (_tostr g).
  split; [reflexivity |]. split; [reflexivity |]. split; [reflexivity |].
  split.
  - unfold __str__, str_tuple, Str.join. cbn [params map String.concat].
    now rewrite !IdentityFacts.append_assoc.
  - intros f Hf. cbn in Hf. rewrite !orb_true_iff in Hf.
    destruct Hf as [Hf | [Hf | [Hf | Hf]]]; try discriminate;
      apply String.eqb_eq in Hf; subst f; reflexivity.
Qed.

Lemma sceneset_id_projection_witness :
  exists ss product tag,
    SceneId.sceneset_id Sample.scene_l1 = Ok ss /\
    __str__ Sample.scene_l1
    = (product ++ "_" ++ __str__ ss ++ "_" ++ tag)%string.
Proof.
  destruct (sceneset_id_projection Sample.scene_l1 eq_refl eq_refl)
    as (ss & p & g & Hs & _ & _ & He & _).
  exists ss, p, g. split; [exact Hs | exact He].
Defined.

End TupleFacts.

(** ** Decoding: when it succeeds, how it fails, what it returns *)

Module CodecFacts.

Import Datetime DatetimeFacts Str StrFacts StringableTuple IdentityFacts.
Import TupleFacts.

Lemma split_from_tokens_no_sep (s : string) :
  no_sep (fst (split_from "_" 0 s)) /\
  Forall no_sep (snd (split_from "_" 0 s)).
Proof.
  induction s as [| c s IH]; [split; [reflexivity | constructor] |].
  cbn [split_from]. rewrite prefix_underscore.
  change (String.length "_" - 1) with 0.
  destruct (split_from "_" 0 s) as [t ts]. cbn [fst snd] in IH.
  destruct IH as [Ht Hts].
  destruct (Ascii.eqb c "_") eqn:Hc; cbn [fst snd].
  - split; [reflexivity | now constructor].
  - split; [| exact Hts]. unfold no_sep. cbn [contains]. now rewrite Hc.
Qed.

(** The tokens of [s.split('_')]: there is at least one, and none holds
    ['_']. *)
Lemma split_tokens (s : string) :
  exists t ts, split s "_" = Ok (t :: ts) /\ Forall no_sep (t :: ts).
Proof.
  pose proof (split_from_tokens_no_sep s) as [Ht Hts].
  unfold split. destruct (split_from "_" 0 s) as [t ts].
  exists t, ts. split; [reflexivity | now constructor].
Qed.

Lemma join_split_from (s : string) :
  join "_" (fst (split_from "_" 0 s) :: snd (split_from "_" 0 s)) = s.
Proof.
  induction s as [| c s IH]; [reflexivity |].
  cbn [split_from]. rewrite prefix_underscore.
  change (String.length "_" - 1) with 0.
  destruct (split_from "_" 0 s) as [t ts]. cbn [fst snd] in IH.
  destruct (Ascii.eqb_spec c "_") as [-> | _]; cbn [fst snd].
  - change (join "_" ("" :: t :: ts))%string
      with (String "_" (join "_" (t :: ts))).
    now rewrite IH.
  - destruct ts as [| u ts].
    + cbn in IH. subst t. reflexivity.
    + change (join "_" (String c t :: u :: ts))
        with (String c (join "_" (t :: u :: ts))).
      now rewrite IH.
Qed.

(** Joining the tokens of a split gives the string back. *)
Lemma join_split (s : string) (tokens : list string) :
  split s "_" = Ok tokens -> join "_" tokens = s.
Proof.
  unfold split. pose proof (join_split_from s) as H.
  destruct (split_from "_" 0 s) as [t ts]. intros E.
  injection E as <-. exact H.
Qed.

Lemma split_iff (s : string) (tokens : list string) :
  split s "_" = Ok tokens
  <-> s = join "_" tokens /\ tokens <> [] /\ Forall no_sep tokens.
Proof.
  split.
  - intros H. split; [symmetry; exact (join_split s tokens H) |].
    destruct (split_tokens s) as (t & ts & E & Hsep).
    rewrite H in E. inversion E; subst. split; [discriminate | exact Hsep].
  - intros (-> & Hne & Hsep). now apply split_join.
Qed.

Lemma strptime_raises (s : string) (e : exception) :
  strptime s = Raise e -> e = ValueError.
Proof.
  unfold strptime. destruct (re_timestamp s) as [| [d rest] tl];
    [congruence |].
  destruct rest; [destruct (valid d) |]; congruence.
Qed.

Lemma re_timestamp_second (s : string) (d : datetime) (rest : string) :
  In (d, rest) (re_timestamp s) -> second d = 0.
Proof.
  unfold re_timestamp. intros H.
  apply in_flat_map in H as ([Y s1] & _ & H).
  apply in_flat_map in H as ([m s2] & _ & H).
  apply in_flat_map in H as ([dd s3] & _ & H).
  apply in_flat_map in H as ([hh s4] & _ & H).
  apply in_map_iff in H as ([mm s5] & E & _).
  now inversion E.
Qed.

(** What [strptime] returns is a date in range, at minute resolution. *)
Lemma strptime_sound (s : string) (d : datetime) :
  strptime s = Ok d -> valid d = true /\ second d = 0.
Proof.
  unfold strptime. destruct (re_timestamp s) as [| [d' rest] tl] eqn:E;
    [discriminate |].
  destruct rest; [| discriminate]. destruct (valid d') eqn:Hv; [| discriminate].
  intros H. inversion H; subst. split; [exact Hv |].
  apply (re_timestamp_second s d ""). rewrite E. now left.
Qed.

Lemma to_minute_id (d : datetime) : second d = 0 -> to_minute d = d.
Proof. destruct d. cbn. now intros ->. Qed.

Lemma strptime_canonical (s : string) (d : datetime) :
  strptime s = Ok d -> four_digit_year d = true ->
  strptime (strftime d) = Ok d.
Proof.
  intros H Hy. apply strptime_sound in H as [Hv Hs].
  now rewrite (strptime_strftime d Hv Hy), (to_minute_id d Hs).
Qed.

(** Decoding against [NormalizedScenesetId], by the number of tokens. *)
Lemma from_str_sceneset_tokens (s : string) (tokens : list string) :
  split s "_" = Ok tokens ->
  from_str NormalizedScenesetId s "_"
  = match tokens with
    | [a; b; t] =>
        d <- strptime t ;;
        Ok (mk NormalizedScenesetId [VStr a; VStr b; VTime d])
    | _ => Raise TypeError
    end.
Proof.
  intros H. unfold from_str. rewrite H. cbn [bind].
  destruct tokens as [| a [| b [| t [| u rest]]]]; try reflexivity.
  cbn -[strptime]. destruct (strptime t); reflexivity.
Qed.

(** Decoding against [NormalizedSceneId], by the number of tokens. *)
Lemma from_str_scene_tokens (s : string) (tokens : list string) :
  split s "_" = Ok tokens ->
  from_str NormalizedSceneId s "_"
  = match tokens with
    | [p; a; b; t] =>
        d <- strptime t ;;
        Ok (mk NormalizedSceneId
               [VStr p; VStr a; VStr b; VTime d; VStr "0"])
    | [p; a; b; t; g] =>
        d <- strptime t ;;
        Ok (mk NormalizedSceneId [VStr p; VStr a; VStr b; VTime d; VStr g])
    | _ => Raise TypeError
    end.
Proof.
  intros H. unfold from_str. rewrite H. cbn [bind].
  destruct tokens as [| p [| a [| b [| t [| g [| u rest]]]]]]; try reflexivity;
    cbn -[strptime]; destruct (strptime t); reflexivity.
Qed.

(** What a successful decoding tells about the string and the result. *)
Lemma from_str_sceneset_inv (s : string) (self : t) :
  from_str NormalizedScenesetId s "_" = Ok self ->
  exists a b t d,
    s = join "_" [a; b; t] /\ Forall no_sep [a; b; t] /\
    strptime t = Ok d /\
    self = mk NormalizedScenesetId [VStr a; VStr b; VTime d].
Proof.
  destruct (split_tokens s) as (t0 & ts0 & Hsplit & Hsep).
  pose proof (join_split s _ Hsplit) as Hjoin.
  rewrite (from_str_sceneset_tokens s _ Hsplit).
  destruct ts0 as [| b [| t [| ? ?]]]; try discriminate.
  intros H. apply bind_ok in H as (d & Hd & H). inversion H; subst.
  now exists t0, b, t, d.
Qed.

Lemma from_str_scene_inv (s : string) (self : t) :
  from_str NormalizedSceneId s "_" = Ok self ->
  exists p a b t d g,
    (s = join "_" [p; a; b; t] /\ g = "0"%string
     \/ s = join "_" [p; a; b; t; g] /\ no_sep g) /\
    Forall no_sep [p; a; b; t] /\
    strptime t = Ok d /\
    self = mk NormalizedSceneId [VStr p; VStr a; VStr b; VTime d; VStr g].
Proof.
  destruct (split_tokens s) as (t0 & ts0 & Hsplit & Hsep).
  pose proof (join_split s _ Hsplit) as Hjoin.
  rewrite (from_str_scene_tokens s _ Hsplit).
  destruct ts0 as [| a [| b [| t [| g [| ? ?]]]]]; try discriminate;
    intros H; apply bind_ok in H as (d & Hd & H); inversion H; subst.
  - exists t0, a, b, t, d, "0"%string. rewrite !Forall_cons_iff in *. tauto.
  - exists t0, a, b, t, d, g. rewrite !Forall_cons_iff in *. tauto.
Qed.

(** X5: decoding succeeds exactly on the strings made of the right number
    of tokens free of ['_'] -- three for a scene set, four or five for a
    scene -- whose timestamp token [strptime] accepts; the fields are then
    the tokens, the timestamp parsed, and the tag ['0'] when left out. *)
Theorem from_str_succeeds_iff (s : string) (self : t) :
  (from_str NormalizedScenesetId s "_" = Ok self
   <-> exists a b t d,
         s = join "_" [a; b; t] /\ Forall no_sep [a; b; t] /\
         strptime t = Ok d /\
         self = mk NormalizedScenesetId [VStr a; VStr b; VTime d]) /\
  (from_str NormalizedSceneId s "_" = Ok self
   <-> exists p a b t d g,
         (s = join "_" [p; a; b; t] /\ g = "0"%string
          \/ s = join "_" [p; a; b; t; g] /\ no_sep g) /\
         Forall no_sep [p; a; b; t] /\
         strptime t = Ok d /\
         self = mk NormalizedSceneId
                   [VStr p; VStr a; VStr b; VTime d; VStr g]).
Proof.
  split; split.
  - apply from_str_sceneset_inv.
  - intros (a & b & t & d & -> & Hs & Hd & ->).
    rewrite (from_str_sceneset_tokens _ [a; b; t]);
      [now rewrite Hd | apply split_join; [discriminate | exact Hs]].
  - apply from_str_scene_inv.
  - intros (p & a & b & t & d & g & [[-> ->] | [-> Hg]] & Hs & Hd & ->).
    + rewrite (from_str_scene_tokens _ [p; a; b; t]);
        [now rewrite Hd | apply split_join; [discriminate | exact Hs]].
    + rewrite (from_str_scene_tokens _ [p; a; b; t; g]); [now rewrite Hd |].
      apply split_join; [discriminate |].
      rewrite !Forall_cons_iff in *. tauto.
Qed.

(** X6: a failed decoding raises [TypeError] exactly when the number of
    tokens is wrong (not three for a scene set; neither four nor five for a
    scene) and [ValueError] exactly when that number is right and [strptime]
    refuses the timestamp token; it raises nothing else. *)
Theorem from_str_errors (s : string) (tokens : list string) (e : exception) :
  split s "_" = Ok tokens ->
  (from_str NormalizedScenesetId s "_" = Raise e
   <-> (e = TypeError /\ List.length tokens <> 3)
       \/ (e = ValueError /\ List.length tokens = 3
           /\ strptime (nth 2 tokens ""%string) = Raise ValueError)) /\
  (from_str NormalizedSceneId s "_" = Raise e
   <-> (e = TypeError /\ List.length tokens <> 4 /\ List.length tokens <> 5)
       \/ (e = ValueError /\ (List.length tokens = 4 \/ List.length tokens = 5)
           /\ strptime (nth 3 tokens ""%string) = Raise ValueError)).
Proof.
  intros Hsplit.
  rewrite (from_str_sceneset_tokens s _ Hsplit),
    (from_str_scene_tokens s _ Hsplit).
  split.
  - destruct tokens as [| a [| b [| t [| u rest]]]]; cbn [List.length nth];
      try (split; [intros H; inversion H; left; split; [reflexivity | lia]
                  | intros [[-> _] | (_ & H & _)]; [reflexivity | lia]]).
    destruct (strptime t) as [d | e'] eqn:Hd; cbn [bind].
    + split; [discriminate | intros [[_ H] | (_ & _ & H)]; [lia | discriminate]].
    + pose proof (strptime_raises _ _ Hd) as ->.
      split; [intros H; inversion H; right; auto
             | intros [[_ H] | (-> & _)]; [lia | reflexivity]].
  - destruct tokens as [| p [| a [| b [| t [| g [| u rest]]]]]];
      cbn [List.length nth];
      try (split; [intros H; inversion H; left; repeat split; (reflexivity || lia)
                  | intros [(-> & _) | (_ & H & _)]; [reflexivity | lia]]);
      destruct (strptime t) as [d | e'] eqn:Hd; cbn [bind];
      try (split; [discriminate
                  | intros [(_ & H & H') | (_ & _ & H)]; [lia | discriminate]]);
      pose proof (strptime_raises _ _ Hd) as ->;
      (split; [intros H; inversion H; right; repeat split; auto
              | intros [(_ & H & H') | (-> & _)]; [lia | reflexivity]]).
Qed.

Lemma from_str_errors_witness :
  from_str NormalizedScenesetId "SAT1_TILE42_2024" "_" = Raise ValueError.
Proof.
  apply (from_str_errors "SAT1_TILE42_2024" ["SAT1"; "TILE42"; "2024"]
                         ValueError eq_refl).
  right. repeat split; reflexivity.
Defined.

(** X7: an identity decoded from a string is in canonical form: it has one
    item per field, no field string holds ['_'], its timestamp is a date in
    range with zero seconds, and decoding its own encoded string returns it
    unchanged. *)
Theorem decoded_is_canonical (c : class) (s : string) (self : t) :
  c = NormalizedScenesetId \/ c = NormalizedSceneId ->
  from_str c s "_" = Ok self ->
  (forall d, In (VTime d) (params self) -> four_digit_year d = true) ->
  valid_identity self /\
  (forall d, In (VTime d) (params self) -> second d = 0) /\
  from_str c (__str__ self) "_" = Ok self.
Proof.
  intros [-> | ->] H Hyear.
  - apply from_str_sceneset_inv in H
      as (a & b & t & d & -> & Hs & Hd & ->).
    rewrite !Forall_cons_iff in Hs. destruct Hs as (Ha & Hb & _).
    destruct (strptime_sound _ _ Hd) as [Hv Hsec].
    assert (Hy : four_digit_year d = true)
      by (apply Hyear; cbn; tauto).
    split; [| split].
    + split; [reflexivity |]. split.
      * repeat constructor; try assumption. now apply strftime_no_sep.
      * intros f v Hf Hv'. cbn in Hf. rewrite orb_false_r in Hf.
        apply String.eqb_eq in Hf. subst f. cbn in Hv'.
        inversion Hv'; subst v. now exists d.
    + intros d' [E | [E | [E | []]]]; inversion E; now subst.
    + unfold __str__, str_tuple. cbn [params map _tostr].
      rewrite (from_str_sceneset a b d Ha Hb Hv Hy).
      now rewrite (to_minute_id d Hsec).
  - apply from_str_scene_inv in H
      as (p & a & b & t & d & g & Hg & Hs & Hd & ->).
    rewrite !Forall_cons_iff in Hs. destruct Hs as (Hp & Ha & Hb & _).
    destruct (strptime_sound _ _ Hd) as [Hv Hsec].
    assert (Hy : four_digit_year d = true)
      by (apply Hyear; cbn; tauto).
    assert (Hgs : no_sep g) by (destruct Hg as [[_ ->] | [_ Hg]]; easy).
    split; [| split].
    + split; [reflexivity |]. split.
      * repeat constructor; try assumption. now apply strftime_no_sep.
      * intros f v Hf Hv'. cbn in Hf. rewrite orb_false_r in Hf.
        apply String.eqb_eq in Hf. subst f. cbn in Hv'.
        inversion Hv'; subst v. now exists d.
    + intros d' [E | [E | [E | [E | [E | []]]]]]; inversion E; now subst.
    + unfold __str__, str_tuple. cbn [params map _tostr].
      pose proof (from_str_scene p a b d [g] Hp Ha Hb Hv Hy
                                 (Forall_cons _ Hgs (Forall_nil _)) (le_n 1))
        as E.
      cbn [app hd] in E. rewrite E. now rewrite (to_minute_id d Hsec).
Qed.

Lemma decoded_is_canonical_witness :
  from_str NormalizedSceneId (__str__ Sample.scene_l1) "_"
  = Ok Sample.scene_l1.
Proof.
  apply (decoded_is_canonical NormalizedSceneId
           "L1_SAT1_TILE42_202401011200" Sample.scene_l1).
  - right. reflexivity.
  - reflexivity.
  - intros d [E | [E | [E | [E | [E | []]]]]]; inversion E. reflexivity.
Defined.

(** X8: on a timestamp field, [_fromstr] returns only dates in range with
    zero seconds and raises nothing but [ValueError]; applied to what
    [_tostr] printed for a timestamp, it returns that timestamp cut to the
    minute, which prints the same. *)
Theorem fromstr_timestamp (c : class) (f : string) :
  mem f (timestamp_fields c) = true ->
  (forall s v, _fromstr c (VStr s) f = Ok v ->
               exists d, v = VTime d /\ valid d = true /\ second d = 0) /\
  (forall s e, _fromstr c (VStr s) f = Raise e -> e = ValueError) /\
  (forall d, valid d = true -> four_digit_year d = true ->
             _fromstr c (VStr (_tostr (VTime d))) f = Ok (VTime (to_minute d))
             /\ _tostr (VTime (to_minute d)) = _tostr (VTime d)).
Proof.
  intros Hf. unfold _fromstr. rewrite Hf. split; [| split].
  - intros s v H. apply bind_ok in H as (d & Hd & H). inversion H; subst.
    exists d. split; [reflexivity | exact (strptime_sound _ _ Hd)].
  - intros s e H. destruct (strptime s) as [d | e'] eqn:Hd; [discriminate |].
    cbn [bind] in H. inversion H; subst. exact (strptime_raises _ _ Hd).
  - intros d Hv Hy. cbn [_tostr]. now rewrite (strptime_strftime d Hv Hy).
Qed.

Lemma fromstr_timestamp_witness :
  _fromstr NormalizedSceneId
           (VStr (_tostr (VTime (mk_datetime 2024 1 1 12 0 59)))) "timestamp"
  = Ok (VTime Sample.noon).
Proof.
  destruct (fromstr_timestamp NormalizedSceneId "timestamp" eq_refl)
    as (_ & _ & H).
  exact (proj1 (H (mk_datetime 2024 1 1 12 0 59) eq_refl eq_refl)).
Defined.

End CodecFacts.

(** ** The order of identities *)

Module OrderFacts.

Import Str StringableTuple IdentityFacts.

Lemma compare_refl (x : string) : String.compare x x = Eq.
Proof.
  pose proof (String.compare_antisym x x) as H.
  destruct (String.compare x x); [reflexivity | discriminate | discriminate].
Qed.

Lemma ascii_compare_trans (a b c : ascii) :
  Ascii.compare a b = Lt -> Ascii.compare b c = Lt -> Ascii.compare a c = Lt.
Proof.
  unfold Ascii.compare. rewrite !BinNat.N.compare_lt_iff.
  apply BinNat.N.lt_trans.
Qed.

Lemma compare_trans (x y z : string) :
  String.compare x y = Lt -> String.compare y z = Lt ->
  String.compare x z = Lt.
Proof.
  revert y z. induction x as [| a x IH]; intros [| b y] [| c z];
    cbn [String.compare]; try discriminate; try reflexivity.
  destruct (Ascii.compare a b) eqn:Hab; try discriminate.
  - apply Ascii.compare_eq_iff in Hab. subst b.
    destruct (Ascii.compare a c); [apply IH | reflexivity | discriminate].
  - intros _. destruct (Ascii.compare b c) eqn:Hbc; try discriminate.
    + apply Ascii.compare_eq_iff in Hbc. subst c. now rewrite Hab.
    + now rewrite (ascii_compare_trans a b c Hab Hbc).
Qed.

Lemma ltb_trans (x y z : string) :
  String.ltb x y = true -> String.ltb y z = true -> String.ltb x z = true.
Proof.
  unfold String.ltb. intros Hxy Hyz.
  destruct (String.compare x y) eqn:E1; try discriminate.
  destruct (String.compare y z) eqn:E2; try discriminate.
  now rewrite (compare_trans x y z E1 E2).
Qed.

Lemma ltb_total (x y : string) :
  x <> y -> String.ltb x y = negb (String.ltb y x).
Proof.
  intros Hne. unfold String.ltb. rewrite (String.compare_antisym x y).
  destruct (String.compare y x) eqn:E; try reflexivity.
  apply String.compare_eq_iff in E. congruence.
Qed.

Lemma tuple_ltb_irrefl (l : list string) : tuple_ltb l l = false.
Proof.
  induction l as [| x l IH]; [reflexivity |].
  cbn [tuple_ltb]. now rewrite String.eqb_refl.
Qed.

Lemma tuple_ltb_trans (l1 l2 l3 : list string) :
  tuple_ltb l1 l2 = true -> tuple_ltb l2 l3 = true -> tuple_ltb l1 l3 = true.
Proof.
  revert l2 l3. induction l1 as [| x l1 IH]; intros [| y l2] [| z l3];
    cbn [tuple_ltb]; try discriminate; try reflexivity.
  destruct (String.eqb_spec x y) as [-> | Hxy];
    destruct (String.eqb_spec y z) as [-> | Hyz].
  - apply IH.
  - intros _ H. exact H.
  - intros H _. destruct (String.eqb_spec x z); [congruence | exact H].
  - intros H1 H2. destruct (String.eqb_spec x z) as [-> | _].
    + rewrite (ltb_total z y Hxy), H2 in H1. discriminate.
    + exact (ltb_trans x y z H1 H2).
Qed.

Lemma tuple_ltb_total (l1 l2 : list string) :
  if tuple_eqb l1 l2
  then tuple_ltb l1 l2 = false /\ tuple_ltb l2 l1 = false
  else tuple_ltb l1 l2 = negb (tuple_ltb l2 l1).
Proof.
  revert l2. induction l1 as [| x l1 IH]; intros [| y l2];
    cbn [tuple_eqb tuple_ltb]; try reflexivity; [now split |].
  rewrite (String.eqb_sym y x).
  destruct (String.eqb_spec x y) as [-> | Hxy]; cbn [andb].
  - apply IH.
  - exact (ltb_total x y Hxy).
Qed.

(** X9: [<] on identities is a strict total order up to [==]: no identity
    is below itself, [<] is transitive, and of [A < B], [A == B], [B < A]
    exactly one holds. *)
Theorem lt_strict_total_order :
  (forall A, __lt__ A A = false) /\
  (forall A B C, __lt__ A B = true -> __lt__ B C = true -> __lt__ A C = true) /\
  (forall A B,
      (__lt__ A B = true /\ __eq__ A B = false /\ __lt__ B A = false)
      \/ (__lt__ A B = false /\ __eq__ A B = true /\ __lt__ B A = false)
      \/ (__lt__ A B = false /\ __eq__ A B = false /\ __lt__ B A = true)).
Proof.
  split; [| split].
  - intros A. apply tuple_ltb_irrefl.
  - intros A B C. apply tuple_ltb_trans.
  - intros A B. unfold __lt__, __eq__.
    pose proof (tuple_ltb_total (str_tuple A) (str_tuple B)) as H.
    destruct (tuple_eqb (str_tuple A) (str_tuple B)).
    + right. left. tauto.
    + rewrite H. destruct (tuple_ltb (str_tuple B) (str_tuple A)); cbn; tauto.
Qed.

Lemma compare_append (x y r r' : string) :
  String.length x = String.length y ->
  String.compare (x ++ r) (y ++ r')
  = match String.compare x y with
    | Eq => String.compare r r'
    | c => c
    end.
Proof.
  revert y. induction x as [| a x IH]; intros [| b y] Hlen;
    try discriminate; [reflexivity |].
  cbn [append String.compare].
  destruct (Ascii.compare a b); [| reflexivity | reflexivity].
  apply IH. cbn in Hlen. lia.
Qed.

Lemma eqb_compare (x y : string) :
  String.eqb x y = true <-> String.compare x y = Eq.
Proof.
  rewrite String.eqb_eq. split; [intros ->; apply compare_refl |].
  apply String.compare_eq_iff.
Qed.

(** On tuples whose items have pairwise the same length, the order of the
    joined strings is the order of the tuples. *)
Lemma ltb_join (la lb : list string) :
  Forall2 same_length la lb ->
  String.ltb (join "_" la) (join "_" lb) = tuple_ltb la lb.
Proof.
  induction 1 as [| x y la lb Hxy Hrest IH]; [reflexivity |].
  cbn [tuple_ltb].
  destruct Hrest as [| a b la lb Hab Hrest].
  - cbn [join String.concat].
    destruct (String.eqb_spec x y) as [-> | _]; [apply ltb_irrefl | reflexivity].
  - change (join "_" (x :: a :: la))
      with (x ++ String "_" (join "_" (a :: la)))%string.
    change (join "_" (y :: b :: lb))
      with (y ++ String "_" (join "_" (b :: lb)))%string.
    unfold String.ltb in *. rewrite (compare_append _ _ _ _ Hxy).
    cbn [String.compare]. change (Ascii.compare "_" "_") with Eq. cbv iota.
    destruct (String.eqb_spec x y) as [-> | Hne].
    + now rewrite compare_refl.
    + destruct (String.compare x y) eqn:E; try reflexivity.
      apply String.compare_eq_iff in E. congruence.
Qed.

Lemma same_length_sym (la lb : list string) :
  Forall2 same_length la lb -> Forall2 same_length lb la.
Proof. induction 1; constructor; [now symmetry | assumption]. Qed.

(** X17: for two identities whose fields have pairwise strings of the same
    length, [A < B] iff the encoded string of [A] sorts before that of [B],
    and [A == B] iff the encoded strings are equal. *)
Theorem lt_is_encoded_order (A B : t) :
  Forall2 same_length (str_tuple A) (str_tuple B) ->
  (__lt__ A B = true <-> String.ltb (__str__ A) (__str__ B) = true) /\
  (__eq__ A B = true <-> __str__ A = __str__ B).
Proof.
  intros H. unfold __lt__, __eq__, __str__.
  rewrite (ltb_join _ _ H). split; [tauto |].
  rewrite tuple_eqb_eq. split; [now intros -> |]. intros E.
  pose proof (tuple_ltb_total (str_tuple A) (str_tuple B)) as Htot.
  destruct (tuple_eqb (str_tuple A) (str_tuple B)) eqn:Heq;
    [now apply tuple_eqb_eq |].
  rewrite <- (ltb_join _ _ H), <- (ltb_join _ _ (same_length_sym _ _ H)) in Htot.
  rewrite E, ltb_irrefl in Htot. discriminate.
Qed.

Lemma lt_is_encoded_order_witness :
  __lt__ Sample.set_sat1 (mk NormalizedScenesetId
                             [VStr "SAT2"; VStr "T1"; VTime Sample.noon])
  = true
  <-> String.ltb "SAT1_T1_202401011200" "SAT2_T1_202401011200" = true.
Proof.
  apply (lt_is_encoded_order
           Sample.set_sat1
           (mk NormalizedScenesetId [VStr "SAT2"; VStr "T1"; VTime Sample.noon])).
  repeat (apply Forall2_cons; [reflexivity |]). apply Forall2_nil.
Defined.

Lemma digit_compare (a b : nat) :
  a < 10 -> b < 10 ->
  Ascii.compare (Datetime.digit a) (Datetime.digit b) = (a ?= b).
Proof.
  intros Ha Hb.
  do 10 (destruct a as [| a];
         [do 10 (destruct b as [| b]; [reflexivity |]); lia |]).
  lia.
Qed.

Lemma compare_lex (q1 r1 q2 r2 n1 n2 k : nat) :
  n1 = k * q1 + r1 -> n2 = k * q2 + r2 -> r1 < k -> r2 < k ->
  match q1 ?= q2 with
  | Eq => r1 ?= r2
  | c => c
  end = (n1 ?= n2).
Proof.
  intros -> -> H1 H2.
  destruct (Nat.compare_spec q1 q2) as [-> | Hq | Hq].
  - destruct (Nat.compare_spec r1 r2) as [-> | Hr | Hr]; symmetry.
    + apply Nat.compare_refl.
    + apply Nat.compare_lt_iff. lia.
    + apply Nat.compare_gt_iff. lia.
  - symmetry. apply Nat.compare_lt_iff. nia.
  - symmetry. apply Nat.compare_gt_iff. nia.
Qed.

Lemma pad2_compare (n m : nat) (r r' : string) :
  n < 100 -> m < 100 ->
  String.compare (Datetime.pad2 n ++ r) (Datetime.pad2 m ++ r')
  = match n ?= m with
    | Eq => String.compare r r'
    | c => c
    end.
Proof.
  intros Hn Hm. unfold Datetime.pad2. cbn [append String.compare].
  rewrite !digit_compare;
    try (apply Nat.mod_upper_bound; lia);
    try (apply Nat.Div0.div_lt_upper_bound; lia).
  rewrite <- (compare_lex (n / 10) (n mod 10) (m / 10) (m mod 10) n m 10);
    try (apply Nat.div_mod_eq); try (apply Nat.mod_upper_bound; lia).
  destruct (n / 10 ?= m / 10); [| reflexivity | reflexivity].
  destruct (n mod 10 ?= m mod 10); reflexivity.
Qed.

Lemma pad4_pad2 (n : nat) :
  Datetime.pad4 n = (Datetime.pad2 (n / 100) ++ Datetime.pad2 (n mod 100))%string.
Proof.
  unfold Datetime.pad4, Datetime.pad2. cbn [append].
  now rewrite Nat.Div0.div_div.
Qed.

Lemma pad4_compare (n m : nat) (r r' : string) :
  n < 10 * 1000 -> m < 10 * 1000 ->
  String.compare (Datetime.pad4 n ++ r) (Datetime.pad4 m ++ r')
  = match n ?= m with
    | Eq => String.compare r r'
    | c => c
    end.
Proof.
  intros Hn Hm. rewrite !pad4_pad2, !append_assoc.
  rewrite pad2_compare by (apply Nat.Div0.div_lt_upper_bound; lia).
  rewrite pad2_compare by (apply Nat.mod_upper_bound; lia).
  rewrite <- (compare_lex (n / 100) (n mod 100) (m / 100) (m mod 100) n m 100);
    try (apply Nat.div_mod_eq); try (apply Nat.mod_upper_bound; lia).
  destruct (n / 100 ?= m / 100); [| reflexivity | reflexivity].
  destruct (n mod 100 ?= m mod 100); reflexivity.
Qed.

(** Printed timestamps compare as the timestamps do. *)
Lemma strftime_compare (d1 d2 : Datetime.datetime) :
  Datetime.valid d1 = true -> Datetime.valid d2 = true ->
  Datetime.four_digit_year d1 = true -> Datetime.four_digit_year d2 = true ->
  String.compare (Datetime.strftime d1) (Datetime.strftime d2)
  = Datetime.compare_minutes d1 d2.
Proof.
  intros H1 H2 Hy1 Hy2.
  rewrite (DatetimeFacts.strftime_four_digit d1 Hy1),
    (DatetimeFacts.strftime_four_digit d2 Hy2).
  apply DatetimeFacts.valid_bounds in H1, H2.
  pose proof (DatetimeFacts.days_in_month_le (Datetime.year d1) (Datetime.month d1)).
  pose proof (DatetimeFacts.days_in_month_le (Datetime.year d2) (Datetime.month d2)).
  unfold Datetime.compare_minutes.
  rewrite pad4_compare by lia.
  destruct (Datetime.year d1 ?= Datetime.year d2); try reflexivity.
  rewrite pad2_compare by lia.
  destruct (Datetime.month d1 ?= Datetime.month d2); try reflexivity.
  rewrite pad2_compare by lia.
  destruct (Datetime.day d1 ?= Datetime.day d2); try reflexivity.
  rewrite pad2_compare by lia.
  destruct (Datetime.hour d1 ?= Datetime.hour d2); try reflexivity.
  pose proof (pad2_compare (Datetime.minute d1) (Datetime.minute d2) "" "") as E.
  assert (Hnil : forall x, (Datetime.pad2 x ++ "")%string = Datetime.pad2 x)
    by reflexivity.
  rewrite !Hnil in E. rewrite E by lia.
  destruct (Datetime.minute d1 ?= Datetime.minute d2); reflexivity.
Qed.

Lemma strftime_length (d1 d2 : Datetime.datetime) :
  Datetime.four_digit_year d1 = true -> Datetime.four_digit_year d2 = true ->
  same_length (Datetime.strftime d1) (Datetime.strftime d2).
Proof.
  intros Hy1 Hy2.
  rewrite (DatetimeFacts.strftime_four_digit d1 Hy1),
    (DatetimeFacts.strftime_four_digit d2 Hy2).
  reflexivity.
Qed.

(** X18: two identities that differ in one timestamp only are ordered as
    their timestamps are, to the minute, both by [<] and by their encoded
    strings: the scenes of one product, satellite and tile sort by time. *)
Theorem lt_chronological (c : class) (pre post : list value)
        (d1 d2 : Datetime.datetime) :
  Datetime.valid d1 = true -> Datetime.valid d2 = true ->
  Datetime.four_digit_year d1 = true -> Datetime.four_digit_year d2 = true ->
  __lt__ (mk c (pre ++ VTime d1 :: post)) (mk c (pre ++ VTime d2 :: post))
  = Datetime.before d1 d2 /\
  String.ltb (__str__ (mk c (pre ++ VTime d1 :: post)))
             (__str__ (mk c (pre ++ VTime d2 :: post)))
  = Datetime.before d1 d2.
Proof.
  intros H1 H2 Hy1 Hy2.
  assert (Hlt : __lt__ (mk c (pre ++ VTime d1 :: post))
                       (mk c (pre ++ VTime d2 :: post))
                = Datetime.before d1 d2).
  { unfold __lt__, str_tuple. cbn [params].
    induction pre as [| v pre IH].
    - cbn [app map _tostr tuple_ltb]. unfold Datetime.before.
      rewrite <- (strftime_compare d1 d2 H1 H2 Hy1 Hy2).
      destruct (String.eqb (Datetime.strftime d1) (Datetime.strftime d2)) eqn:E.
      + apply eqb_compare in E. rewrite E. apply tuple_ltb_irrefl.
      + reflexivity.
    - cbn [app map tuple_ltb]. now rewrite String.eqb_refl. }
  split; [exact Hlt |].
  rewrite <- Hlt. unfold __lt__, __str__. apply ltb_join.
  unfold str_tuple. cbn [params]. clear Hlt.
  induction pre as [| v pre IH]; cbn [app map].
  - constructor; [now apply strftime_length |].
    clear. induction post; constructor; [reflexivity | assumption].
  - constructor; [reflexivity | exact IH].
Qed.

Lemma lt_chronological_witness :
  __lt__ Sample.set_sat
         (mk NormalizedScenesetId
             [VStr "SAT"; VStr "T1";
              VTime (Datetime.mk_datetime 2024 1 2 0 0 0)])
  = true.
Proof.
  exact (proj1 (lt_chronological NormalizedScenesetId
                  [VStr "SAT"; VStr "T1"] [] Sample.noon
                  (Datetime.mk_datetime 2024 1 2 0 0 0)
                  eq_refl eq_refl eq_refl eq_refl)).
Defined.

End OrderFacts.

(** ** Band locations and storage paths *)

Module PathFacts.

Import Str StrFacts StringableTuple IdentityFacts TupleFacts.

Lemma dict_get_fold {A : Type} (f : string -> A) (keys : list string)
      (acc : dict A) (k : string) :
  dict_get (fold_left (fun acc k => dict_set acc k (f k)) keys acc) k
  = if mem k keys then Some (f k) else dict_get acc k.
Proof.
  revert acc. induction keys as [| k0 keys IH]; intros acc; [reflexivity |].
  cbn [fold_left]. rewrite IH, dict_get_set.
  unfold mem. cbn [existsb]. fold (mem k keys).
  rewrite (String.eqb_sym k k0).
  destruct (mem k keys); [now rewrite orb_true_r |].
  rewrite orb_false_r. destruct (String.eqb_spec k0 k) as [-> | _]; reflexivity.
Qed.

Lemma dict_get_comp {A : Type} (f : string -> A) (keys : list string)
      (k : string) :
  dict_get (dict_comp f keys) k = if mem k keys then Some (f k) else None.
Proof. unfold dict_comp. now rewrite dict_get_fold. Qed.

(** X10: [band_urls(prefix, bands)] maps each band asked for to the prefix
    followed by directory, ['/'], encoded identity, ['_'], band, ['.tif'],
    and holds no other band; with the default bands its keys are blue,
    green, red, nir, in this order. *)
Theorem band_urls_lookup (self : t) (prefix : string) (bands : list string)
        (band : string) :
  dict_get (SceneId.band_urls self prefix bands) band
  = (if mem band bands
     then Some (prefix ++ SceneId.dir_path self ++ "/" ++ __str__ self
                ++ "_" ++ band ++ ".tif")%string
     else None) /\
  map fst (SceneId.band_urls self prefix band_names)
  = ["blue"; "green"; "red"; "nir"]%string.
Proof.
  split; [| reflexivity].
  unfold SceneId.band_urls. rewrite dict_get_comp.
  destruct (mem band bands); [| reflexivity].
  unfold SceneId.band_url.
  now destruct (paths_layout self band) as [_ ->].
Qed.

Lemma length_append (x y : string) :
  String.length (x ++ y) = String.length x + String.length y.
Proof. induction x as [| c x IH]; cbn; [reflexivity | now rewrite IH]. Qed.

Lemma append_inj (x y r r' : string) :
  String.length x = String.length y ->
  (x ++ r = y ++ r')%string -> x = y /\ r = r'.
Proof.
  revert y. induction x as [| c x IH]; intros [| d y] Hlen H;
    try discriminate; [now split |].
  cbn [append] in H. inversion H; subst.
  destruct (IH y) as [-> ->]; [cbn in Hlen; lia | assumption | now split].
Qed.

Lemma append_cancel_r (x y r : string) : (x ++ r = y ++ r)%string -> x = y.
Proof.
  intros H. apply (append_inj x y r r); [| exact H].
  apply (f_equal String.length) in H. rewrite !length_append in H. lia.
Qed.

(** With a separator of one character, the length of a joined string does
    not depend on the separator. *)
Lemma join_length (l : list string) :
  String.length (join "/" l) = String.length (join "_" l).
Proof.
  induction l as [| x [| y l] IH]; try reflexivity.
  change (join "/" (x :: y :: l)) with (x ++ "/" ++ join "/" (y :: l))%string.
  change (join "_" (x :: y :: l)) with (x ++ "_" ++ join "_" (y :: l))%string.
  rewrite !length_append, IH. reflexivity.
Qed.

Lemma prefix_inj (A B : t) :
  SceneId.scenepath_prefix A = SceneId.scenepath_prefix B ->
  __str__ A = __str__ B.
Proof.
  unfold SceneId.scenepath_prefix, SceneId.dir_path, __str__.
  set (la := str_tuple A). set (lb := str_tuple B).
  change (join "/" [join "/" la; join "_" la])
    with (join "/" la ++ "/" ++ join "_" la)%string.
  change (join "/" [join "/" lb; join "_" lb])
    with (join "/" lb ++ "/" ++ join "_" lb)%string.
  intros H.
  assert (Hlen : String.length (join "/" la) = String.length (join "/" lb)).
  { apply (f_equal String.length) in H.
    rewrite !length_append, <- !join_length in H. cbn in H. lia. }
  destruct (append_inj _ _ _ _ Hlen H) as [_ E]. now inversion E.
Qed.

(** X11: two identities of one class whose field strings hold no ['_'] have
    the same metadata path, or the same path for some band, only if they are
    equal: distinct identities never share a file. *)
Theorem paths_injective (A B : t) :
  cls A = cls B -> wf A -> wf B ->
  Forall no_sep (str_tuple A) -> Forall no_sep (str_tuple B) ->
  SceneId.metadata_path A = SceneId.metadata_path B
  \/ (exists band, SceneId.band_path A band = SceneId.band_path B band) ->
  __eq__ A B = true.
Proof.
  intros Hcls HA HB HsA HsB Hpath.
  assert (Hstr : __str__ A = __str__ B).
  { apply prefix_inj. destruct Hpath as [H | [band H]].
    - exact (append_cancel_r _ _ _ H).
    - exact (append_cancel_r _ _ _ H). }
  unfold __eq__. apply tuple_eqb_eq. apply join_inj; try assumption.
  rewrite !str_tuple_length. unfold wf in HA, HB. congruence.
Qed.

Lemma paths_injective_witness :
  __eq__ Sample.scene_l1
         (mk NormalizedSceneId
             [VStr "L1"; VStr "SAT1"; VStr "TILE42";
              VTime (Datetime.mk_datetime 2024 1 1 12 0 30); VStr "0"])
  = true.
Proof.
  apply paths_injective; try reflexivity.
  - repeat (apply Forall_cons; [reflexivity |]). apply Forall_nil.
  - repeat (apply Forall_cons; [reflexivity |]). apply Forall_nil.
  - left. reflexivity.
Defined.

End PathFacts.

(** ** Lazy scenes: what the constructor and the accessors do and never do *)

Module LazyFacts.

Import FilebasedScene SceneFacts.

Section Facts.

Context {json : Type} (E : env json).

Lemma started_attrs (bu : option (dict string)) :
  band_urls_attr (started (json := json) bu) = bu /\
  _metadata_path (started (json := json) bu) = None /\
  _path (started (json := json) bu) = None /\
  metadata_attr (started (json := json) bu) = None.
Proof. destruct bu; repeat split. Qed.

(** The constructor, case by case. *)
Lemma construct_cases (path : string) (bu : option (dict string))
      (files : list string) :
  construct E path bu files
  = (if isfile E path
     then Ok (set_path (abspath E (dirname E path))
                       (set_metadata_path path (started bu)))
     else if isdir E path
          then match glob E (os_path_join path "*_metadata.json") with
               | [f] => Ok (set_metadata_path f (set_path path (started bu)))
               | _ => Raise AssertionError
               end
          else Ok (started bu),
     files).
Proof.
  unfold construct, __init__. rewrite init_band_urls.
  destruct (isfile E path); [reflexivity |].
  destruct (isdir E path); [| reflexivity].
  destruct (glob E (os_path_join path "*_metadata.json")) as [| f [| g l]];
    reflexivity.
Qed.

(** X12: whatever the path, the constructor opens no file; the one
    exception it raises is the [AssertionError] of a directory in which [glob]
    finds no metadata file or several; the instance it returns has no
    metadata loaded and holds the [band_urls] it was given, and for the path
    of a file it holds that path and the absolute path of its directory. *)
Theorem construct_effects (path : string) (bu : option (dict string))
        (files : list string) :
  snd (construct E path bu files) = files /\
  (forall e, fst (construct E path bu files) = Raise e ->
             e = AssertionError /\ isfile E path = false /\
             isdir E path = true /\
             List.length (glob E (os_path_join path "*_metadata.json")) <> 1) /\
  (forall s, fst (construct E path bu files) = Ok s ->
             metadata_attr s = None /\ band_urls_attr s = bu /\
             (isfile E path = true ->
              _metadata_path s = Some path /\
              _path s = Some (abspath E (dirname E path)))).
Proof.
  destruct (started_attrs bu) as (Hb & _ & _ & Hm).
  rewrite construct_cases. cbn [fst snd]. split; [reflexivity |].
  destruct (isfile E path) eqn:Hf.
  - split; [discriminate |].
    intros s H. inversion H; subst. cbn. now rewrite Hb, Hm.
  - destruct (isdir E path) eqn:Hd.
    + destruct (glob E (os_path_join path "*_metadata.json"))
        as [| f [| g l]]; cbn [List.length].
      * split; [| discriminate].
        intros e H. inversion H. repeat split; lia.
      * split; [discriminate |].
        intros s H. inversion H; subst. cbn. rewrite Hb, Hm.
        repeat split; discriminate.
      * split; [| discriminate].
        intros e H. inversion H. repeat split; lia.
    + split; [discriminate |].
      intros s H. inversion H; subst. rewrite Hb, Hm.
      repeat split; discriminate.
Qed.

(** X13: a failure to load the metadata is not kept: when opening the file,
    or parsing its text, raises [e], every access to [.metadata] opens the
    file again and raises [e] again, and the instance is left as it was. *)
Theorem metadata_failure_not_cached (s : scene) (f : string) (e : exception)
        (n : nat) (files : list string) :
  metadata_attr s = None -> _metadata_path s = Some f ->
  read_file E f = Raise e
  \/ (exists text, read_file E f = Ok text /\ json_loads E text = Raise e) ->
  metadata_accesses E n (mk_state s files)
  = (repeat (Raise e) n, mk_state s (files ++ repeat f n)%list).
Proof.
  intros Hm Hp Hfail. revert files.
  assert (Hone : forall files,
             metadata E (mk_state s files)
             = (Raise e, mk_state s (files ++ [f])%list)).
  { intros files. unfold metadata, cached_property, bindM, get_self.
    cbn [self]. rewrite Hm. unfold attr. cbn [self]. rewrite Hp.
    unfold open_read. cbn [self opened].
    destruct Hfail as [-> | (text & -> & Hparse)]; [reflexivity |].
    unfold lift. now rewrite Hparse. }
  induction n as [| n IH]; intros files.
  - cbn [metadata_accesses repeat]. now rewrite app_nil_r.
  - cbn [metadata_accesses repeat]. rewrite Hone, IH.
    now rewrite <- app_assoc.
Qed.

(** The band locations [band_urls] derives for the scene [sid] in [dir]. *)
Lemma band_urls_first (s : scene) (files : list string) (f text dir : string)
      (md sid : json) :
  band_urls_attr s = None -> metadata_attr s = None ->
  _metadata_path s = Some f -> _path s = Some dir ->
  read_file E f = Ok text -> json_loads E text = Ok md ->
  getitem E md "scene_id" = Ok sid ->
  band_urls E (mk_state s files)
  = (Ok (derived_urls E dir sid),
     mk_state (set_band_urls (derived_urls E dir sid) (set_metadata md s))
              (files ++ [f])%list).
Proof.
  intros Hb Hm Hp Hd Hread Hparse Hget.
  unfold band_urls, cached_property at 1. unfold bindM at 1, get_self.
  cbn [self]. rewrite Hb. unfold bindM at 1. unfold bindM at 1.
  rewrite (metadata_first E s files f text md Hm Hp Hread Hparse).
  unfold bindM, lift, attr, modify, get_self, put_self, ret.
  cbn [self opened set_metadata _path]. now rewrite Hget, Hd.
Qed.

(** X14: on a scene made without [band_urls], the first access to
    [.band_urls] loads the metadata, opening its file once, and returns for
    each of blue, green, red, nir the file named after the metadata's
    [scene_id] and the band in the scene's directory; afterwards
    [.band_urls] and [.metadata] answer from the instance and open nothing. *)
Theorem band_urls_derived (s : scene) (files : list string)
        (f text dir : string) (md sid : json) :
  band_urls_attr s = None -> metadata_attr s = None ->
  _metadata_path s = Some f -> _path s = Some dir ->
  read_file E f = Ok text -> json_loads E text = Ok md ->
  getitem E md "scene_id" = Ok sid ->
  exists urls st',
    band_urls E (mk_state s files) = (Ok urls, st') /\
    opened st' = (files ++ [f])%list /\
    (forall band,
        dict_get urls band
        = if mem band band_names
          then Some (os_path_join dir (format E sid ++ "_" ++ band ++ ".tif"))
          else None) /\
    band_urls E st' = (Ok urls, st') /\
    metadata E st' = (Ok md, st').
Proof.
  intros Hb Hm Hp Hd Hread Hparse Hget.
  eexists. eexists.
  split; [exact (band_urls_first s files f text dir md sid
                                 Hb Hm Hp Hd Hread Hparse Hget) |].
  split; [reflexivity |]. split; [| split].
  - intros band.
    exact (PathFacts.dict_get_comp
             (fun band =>
                os_path_join dir (format E sid ++ "_" ++ band ++ ".tif"))%string
             band_names band).
  - unfold band_urls, cached_property, bindM, get_self. reflexivity.
  - now apply metadata_cached.
Qed.

(** X15: a scene constructed with [band_urls] answers [.band_urls] with
    them: no file is opened and the metadata stays unloaded. *)
Theorem band_urls_given (path : string) (b : dict string)
        (files : list string) (s : scene) :
  construct E path (Some b) files = (Ok s, files) ->
  band_urls E (mk_state s files) = (Ok b, mk_state s files) /\
  metadata_attr s = None.
Proof.
  intros H. rewrite construct_cases in H.
  assert (Hs : band_urls_attr s = Some b /\ metadata_attr s = None).
  { destruct (isfile E path); [inversion H; now subst |].
    destruct (isdir E path); [| inversion H; now subst].
    destruct (glob E (os_path_join path "*_metadata.json")) as [| f [| g l]];
      inversion H; now subst. }
  destruct Hs as [Hb Hm]. split; [| exact Hm].
  unfold band_urls, cached_property, bindM, get_self. cbn [self].
  now rewrite Hb.
Qed.

(** X16: once the metadata is on the instance, none of [.metadata],
    [scene[key]] and [.band_urls] opens a file or replaces the metadata,
    whether it returns or raises; [scene[key]] then is [metadata[key]]. *)
Theorem loaded_metadata_stays (st : state) (md : json) (key : string) :
  metadata_attr (self st) = Some md ->
  (metadata E st = (Ok md, st)) /\
  (__getitem__ E key st = (getitem E md key, st)) /\
  (opened (snd (band_urls E st)) = opened st /\
   metadata_attr (self (snd (band_urls E st))) = Some md).
Proof.
  intros Hm. pose proof (metadata_cached E st md Hm) as Hmeta.
  split; [exact Hmeta |]. split.
  - unfold __getitem__, bindM. rewrite Hmeta. unfold lift.
    now destruct (getitem E md key).
  - destruct (band_urls E st) as [r st'] eqn:H. cbn [snd].
    unfold band_urls, cached_property in H. unfold bindM at 1 in H.
    unfold get_self in H.
    destruct (band_urls_attr (self st)) as [b |];
      [inversion H; subst; now split |].
    unfold bindM at 1 in H. unfold bindM at 1 in H. rewrite Hmeta in H.
    unfold bindM at 1 in H. unfold lift in H.
    destruct (getitem E md "scene_id") as [sid | e];
      [| inversion H; subst; now split].
    unfold bindM at 1 in H. unfold attr in H.
    destruct (_path (self st)) as [dir |];
      [| inversion H; subst; now split].
    unfold bindM, modify, get_self, put_self, ret in H.
    inversion H; subst. cbn [self opened]. now split.
Qed.

End Facts.

Lemma metadata_failure_not_cached_witness :
  metadata_accesses Sample.disk 2
    (mk_state (mk_scene None (Some "scenes/gone_metadata.json"%string)
                        (Some "scenes"%string) None) [])
  = ([Raise OSError; Raise OSError],
     mk_state (mk_scene None (Some "scenes/gone_metadata.json"%string)
                        (Some "scenes"%string) None)
              ["scenes/gone_metadata.json"%string;
               "scenes/gone_metadata.json"%string]).
Proof.
  apply (metadata_failure_not_cached Sample.disk
           (mk_scene None (Some "scenes/gone_metadata.json"%string)
                     (Some "scenes"%string) None)
           "scenes/gone_metadata.json" OSError 2 []);
    [reflexivity | reflexivity | left; reflexivity].
Defined.

Lemma band_urls_derived_witness :
  exists urls st',
    band_urls Sample.disk
      (mk_state (mk_scene None (Some Sample.meta_file)
                          (Some "scenes/a"%string) None) [])
    = (Ok urls, st') /\
    opened st' = [Sample.meta_file] /\
    dict_get urls "nir"
    = Some "scenes/a/L1_SAT1_TILE42_202401011200_0_nir.tif"%string.
Proof.
  destruct (band_urls_derived Sample.disk
              (mk_scene None (Some Sample.meta_file)
                        (Some "scenes/a"%string) None)
              [] Sample.meta_file
              "L1_SAT1_TILE42_202401011200_0" "scenes/a"
              "L1_SAT1_TILE42_202401011200_0"%string
              "L1_SAT1_TILE42_202401011200_0"%string
              eq_refl eq_refl eq_refl eq_refl eq_refl eq_refl eq_refl)
    as (urls & st' & Hb & Ho & Hget & _).
  exists urls, st'. split; [exact Hb |]. split; [exact Ho |].
  exact (Hget "nir"%string).
Defined.

Lemma band_urls_given_witness :
  band_urls Sample.disk
    (mk_state (mk_scene (Some [("pan"%string, "s3://bucket/pan.tif"%string)])
                        (Some Sample.meta_file) (Some "scenes/a"%string) None)
              [])
  = (Ok [("pan"%string, "s3://bucket/pan.tif"%string)],
     mk_state (mk_scene (Some [("pan"%string, "s3://bucket/pan.tif"%string)])
                        (Some Sample.meta_file) (Some "scenes/a"%string) None)
              []).
Proof.
  exact (proj1 (band_urls_given Sample.disk "scenes/a"
                  [("pan"%string, "s3://bucket/pan.tif"%string)] [] _
                  eq_refl)).
Defined.

Lemma loaded_metadata_stays_witness :
  __getitem__ Sample.disk "scene_id"
    (mk_state (mk_scene None (Some Sample.meta_file) (Some "scenes/a"%string)
                        (Some "L1_SAT1_TILE42_202401011200_0"%string)) [])
  = (Ok "L1_SAT1_TILE42_202401011200_0"%string,
     mk_state (mk_scene None (Some Sample.meta_file) (Some "scenes/a"%string)
                        (Some "L1_SAT1_TILE42_202401011200_0"%string)) []).
Proof.
  exact (proj1 (proj2 (loaded_metadata_stays Sample.disk
                         (mk_state (mk_scene None (Some Sample.meta_file)
                                             (Some "scenes/a"%string)
                                             (Some "L1_SAT1_TILE42_202401011200_0"%string))
                                   [])
                         "L1_SAT1_TILE42_202401011200_0"%string
                         "scene_id" eq_refl))).
Defined.

End LazyFacts.
